(** * ExternalCaller: the cdecl call stub and the remote-execution driver

    A shallow embedding of [call_external_cdecl_function]
    (src/ExternalCaller/src/external_caller.c).  The C function does two
    things in one body: it assembles a small i686 routine ("the caller")
    byte by byte in a heap buffer, and it drives the Windows process API
    to run that routine inside another process.

    - [DWORD], [unsigned __int32] : Z with the reduction modulo 2^32 written
      out; [unsigned __int8] : Z reduced modulo 2^8; [int] : Z, defined only
      inside the signed 32-bit range.
    - the heap buffer [caller_bytes] and the array [args] : lists indexed
      with stdpp's lookup and insert.  C gives no meaning to an access
      outside the object, so loads and stores are bounds-checked and
      return [None] there.
    - the Windows API and the C allocator are not part of the repository:
      they are a record of operations on an abstract world. *)

From stdpp Require Import list numbers option.
From stdpp Require strings.

Local Open Scope Z_scope.

(** ** Machine integers *)

Definition INT_MIN : Z := - 2 ^ 31.
Definition INT_MAX : Z := 2 ^ 31 - 1.

(** Conversion to [DWORD] / [unsigned __int32]. *)
Definition dword (z : Z) : Z := z mod 2 ^ 32.

(** Conversion to [unsigned __int8]. *)
Definition uint8 (z : Z) : Z := z mod 2 ^ 8.

Definition is_dword (z : Z) : Prop := 0 <= z < 2 ^ 32.

Definition add32 (a b : Z) : Z := dword (a + b).
Definition sub32 (a b : Z) : Z := dword (a - b).
Definition mul32 (a b : Z) : Z := dword (a * b).

(** The value of an [int] expression: signed overflow has no defined
    result in C99. *)
Definition int_val (z : Z) : option Z :=
  if (INT_MIN <=? z) && (z <=? INT_MAX) then Some z else None.

(** ** Memory objects *)

Definition in_bounds {A} (obj : list A) (idx : Z) : bool :=
  (0 <=? idx) && (idx <? Z.of_nat (length obj)).

(** [obj[idx]] as an rvalue. *)
Definition load {A} (obj : list A) (idx : Z) : option A :=
  if in_bounds obj idx then obj !! Z.to_nat idx else None.

(** [bytes[idx] = v] for a buffer of [unsigned __int8]. *)
Definition store8 (bytes : list Z) (idx v : Z) : option (list Z) :=
  if in_bounds bytes idx then Some (<[Z.to_nat idx := uint8 v]> bytes) else None.

(** The four bytes of a 32-bit value, least significant first (i686). *)
Definition le_byte (k : Z) (v : Z) : Z := Z.land (Z.shiftr v (8 * k)) 255.

(** [*(unsigned __int32* )(bytes + idx) = v]. *)
Definition store32 (bytes : list Z) (idx v : Z) : option (list Z) :=
  b ← store8 bytes idx (le_byte 0 v);
  b ← store8 b (idx + 1) (le_byte 1 v);
  b ← store8 b (idx + 2) (le_byte 2 v);
  store8 b (idx + 3) (le_byte 3 v).

(** [*(unsigned __int32* )(bytes + idx)] as an rvalue: how the field is
    decoded back out of the stub. *)
Definition load32 (bytes : list Z) (idx : Z) : option Z :=
  b0 ← load bytes idx;
  b1 ← load bytes (idx + 1);
  b2 ← load bytes (idx + 2);
  b3 ← load bytes (idx + 3);
  Some (Z.lor b0 (Z.lor (Z.shiftl b1 8) (Z.lor (Z.shiftl b2 16) (Z.shiftl b3 24)))).

(** ** The caller (stub) *)

(** Lines 87-91. *)
Definition caller_size (argc : Z) : Z :=
  add32 (add32 (add32 (add32 (mul32 (1 + 4) argc) 1) 4) 3) 1.

(** Lines 102-106: [for (int i = 0; i < argc; i++)].  The comparison is made
    in [DWORD]; [i * 5] and [i++] are [int] arithmetic; [argc - i - 1] is
    [DWORD] arithmetic.  [fuel] bounds the number of iterations. *)
Fixpoint push_args (fuel : nat) (i argc : Z) (args caller_bytes : list Z)
  : option (list Z) :=
  if dword i <? argc then
    match fuel with
    | O => None
    | S fuel' =>
        off ← int_val (i * 5);
        b ← store8 caller_bytes off 0x68;
        a ← load args (sub32 (sub32 argc (dword i)) 1);
        b ← store32 b (off + 1) a;
        i' ← int_val (i + 1);
        push_args fuel' i' argc args b
    end
  else Some caller_bytes.

(** Lines 109-113: the operand of the near call. *)
Definition call_operand (function_address caller_address argc : Z) : Z :=
  sub32 (sub32 function_address (add32 (dword caller_address) (mul32 argc 5))) 5.

(** Lines 101-121: everything the function writes into [caller_bytes]. *)
Definition write_caller (function_address caller_address argc : Z)
    (args caller_bytes : list Z) : option (list Z) :=
  b ← push_args (Z.to_nat argc) 0 argc args caller_bytes;
  b ← store8 b (mul32 argc 5) 0xe8;
  b ← store32 b (mul32 argc 5 + 1) (call_operand function_address caller_address argc);
  b ← store8 b (add32 (mul32 argc 5) 5) 0x83;
  b ← store8 b (add32 (mul32 argc 5) 6) 0xc4;
  b ← store8 b (add32 (mul32 argc 5) 7) (mul32 4 argc);
  store8 b (add32 (mul32 argc 5) 8) 0xc3.

(** The caller structure drawn in the header comment of the function
    (lines 60-68), as it is read back from the buffer. *)
Record caller_layout (function_address caller_address argc : Z)
    (args stub : list Z) : Prop := {
  lay_int : 5 * (argc - 1) <= INT_MAX;
  lay_room : 5 * argc + 9 <= Z.of_nat (length stub);
  lay_push : ∀ j, 0 <= j < argc →
    load stub (5 * j) = Some 0x68 ∧
    ∃ a, load args (argc - 1 - j) = Some a ∧
         load32 stub (5 * j + 1) = Some (dword a);
  lay_call : load stub (5 * argc) = Some 0xe8;
  lay_operand :
    load32 stub (5 * argc + 1) =
    Some (call_operand function_address caller_address argc);
  lay_add : load stub (5 * argc + 5) = Some 0x83;
  lay_esp : load stub (5 * argc + 6) = Some 0xc4;
  lay_imm : load stub (5 * argc + 7) = Some (uint8 (mul32 4 argc));
  lay_ret : load stub (5 * argc + 8) = Some 0xc3
}.

(** ** The Windows process API and the C allocator

    Neither is part of the repository.  The function is embedded over a
    record of operations on an abstract world: each operation takes the
    arguments the source passes and returns what the source receives,
    together with the next world.  The numeric values of the [Windows.h]
    constants are fields of the record as well. *)

Definition NULL : Z := 0.
Definition FALSE : Z := 0.

Record WinAPI (World : Type) := {
  PROCESS_ALL_ACCESS : Z;
  MEM_COMMIT : Z;
  MEM_RESERVE : Z;
  MEM_FREE : Z;
  PAGE_EXECUTE_READWRITE : Z;
  (** [OpenProcess(access, inherit, pid)]: a handle, [NULL] on failure. *)
  OpenProcess : Z → Z → Z → World → Z * World;
  (** [VirtualAllocEx(process, address, size, type, protect)]: the base
      address of the region, [NULL] on failure. *)
  VirtualAllocEx : Z → Z → Z → Z → Z → World → Z * World;
  (** [malloc(size)]: a fresh object with indeterminate contents, or
      [None] for a null pointer. *)
  malloc : Z → World → option (list Z) * World;
  (** [WriteProcessMemory(process, address, buffer, size, NULL)]. *)
  WriteProcessMemory : Z → Z → list Z → Z → World → Z * World;
  (** [CreateRemoteThread(process, NULL, 0, start, NULL, 0, NULL)]: a
      handle, [NULL] on failure. *)
  CreateRemoteThread : Z → Z → World → Z * World;
  (** [WaitForSingleObject(handle, milliseconds)]. *)
  WaitForSingleObject : Z → Z → World → Z * World;
  (** [GetExitCodeThread(handle, &code)]: the value stored through the
      pointer, [None] when the call stores nothing. *)
  GetExitCodeThread : Z → World → option Z * World;
  CloseHandle : Z → World → Z * World;
  (** [free(block)]. *)
  free : list Z → World → World;
  (** [VirtualFreeEx(process, address, size, type)]. *)
  VirtualFreeEx : Z → Z → Z → Z → World → Z * World
}.

Arguments PROCESS_ALL_ACCESS {World}.
Arguments MEM_COMMIT {World}.
Arguments MEM_RESERVE {World}.
Arguments MEM_FREE {World}.
Arguments PAGE_EXECUTE_READWRITE {World}.
Arguments OpenProcess {World}.
Arguments VirtualAllocEx {World}.
Arguments malloc {World}.
Arguments WriteProcessMemory {World}.
Arguments CreateRemoteThread {World}.
Arguments WaitForSingleObject {World}.
Arguments GetExitCodeThread {World}.
Arguments CloseHandle {World}.
Arguments free {World}.
Arguments VirtualFreeEx {World}.

(** What the function does to its environment, in order: every call with
    the arguments passed and the value received. *)
Inductive event :=
| EOpenProcess (access inherit pid handle : Z)
| EVirtualAllocEx (process address size type protect base : Z)
| Emalloc (size : Z) (block : option (list Z))
| EWriteProcessMemory (process address : Z) (data : list Z) (size : Z)
| ECreateRemoteThread (process start handle : Z)
| EWaitForSingleObject (handle milliseconds answer : Z)
| EGetExitCodeThread (handle : Z) (code : option Z)
| ECloseHandle (handle : Z)
| Efree (block : list Z)
| EVirtualFreeEx (process address size type : Z).

(** Why a run stops without reaching [return]. *)
Inductive stop :=
| Undefined   (** an access outside an object or an [int] overflow *)
| Spinning.   (** the wait loop is still polling when the fuel runs out *)

Inductive result (World A : Type) :=
| Done (a : A) (w : World) (tr : list event)
| Halt (why : stop) (w : World) (tr : list event).

Arguments Done {World A}.
Arguments Halt {World A}.

Definition trace_of {World A} (r : result World A) : list event :=
  match r with Done _ _ tr | Halt _ _ tr => tr end.

(** Computations of the function body: the world and the trace so far are
    threaded through. *)
Definition M (World A : Type) : Type := World → list event → result World A.

Definition ret {World A} (a : A) : M World A := λ w tr, Done a w tr.

Definition bind {World A B} (m : M World A) (k : A → M World B) : M World B :=
  λ w tr,
    match m w tr with
    | Done a w' tr' => k a w' tr'
    | Halt why w' tr' => Halt why w' tr'
    end.

Notation "'do' x <- m ; k" := (bind m (λ x, k))
  (at level 10, x name, m at level 100, k at level 200,
   format "'[v' 'do'  x  <-  m ; '/' k ']'").

(** A call into the environment, logged with its answer. *)
Definition sys {World A} (op : World → A * World) (ev : A → event) : M World A :=
  λ w tr, let '(a, w') := op w in Done a w' (tr ++ [ev a]).

Definition sys_void {World} (op : World → World) (ev : event) : M World unit :=
  λ w tr, Done tt (op w) (tr ++ [ev]).

Definition defined {World A} (o : option A) : M World A :=
  λ w tr, match o with Some a => Done a w tr | None => Halt Undefined w tr end.

Section Driver.
Context {World : Type} (api : WinAPI World).

(** Line 132: [while (WaitForSingleObject(thread_handle, 0) != 0) {}]. *)
Fixpoint wait_loop (fuel : nat) (thread_handle : Z) : M World unit :=
  match fuel with
  | O => λ w tr, Halt Spinning w tr
  | S fuel' =>
      do answer <- sys (WaitForSingleObject api thread_handle 0)
                       (EWaitForSingleObject thread_handle 0);
      if answer =? 0 then ret tt else wait_loop fuel' thread_handle
  end.

(** Lines 84-143.  [fuel] bounds the number of polls of the wait loop. *)
Definition call_external_cdecl_function (fuel : nat)
    (process_id function_address argc : Z) (args : list Z) : M World Z :=
  let caller_size := caller_size argc in
  do process_handle <-
    sys (OpenProcess api (PROCESS_ALL_ACCESS api) FALSE process_id)
        (EOpenProcess (PROCESS_ALL_ACCESS api) FALSE process_id);
  do caller_address <-
    sys (VirtualAllocEx api process_handle NULL caller_size
           (Z.lor (MEM_COMMIT api) (MEM_RESERVE api)) (PAGE_EXECUTE_READWRITE api))
        (EVirtualAllocEx process_handle NULL caller_size
           (Z.lor (MEM_COMMIT api) (MEM_RESERVE api)) (PAGE_EXECUTE_READWRITE api));
  do block <- sys (malloc api caller_size) (Emalloc caller_size);
  do caller_bytes <-
    defined (block ≫= write_caller function_address caller_address argc args);
  do _ <- sys (WriteProcessMemory api process_handle caller_address
                 caller_bytes caller_size)
              (λ _, EWriteProcessMemory process_handle caller_address
                      caller_bytes caller_size);
  do thread_handle <-
    sys (CreateRemoteThread api process_handle caller_address)
        (ECreateRemoteThread process_handle caller_address);
  do _ <- wait_loop fuel thread_handle;
  let result := 0 in
  do code <- sys (GetExitCodeThread api thread_handle)
                 (EGetExitCodeThread thread_handle);
  let result := default result code in
  do _ <- sys (CloseHandle api thread_handle) (λ _, ECloseHandle thread_handle);
  do _ <- sys_void (free api caller_bytes) (Efree caller_bytes);
  do _ <- sys (VirtualFreeEx api process_handle caller_address caller_size
                 (MEM_FREE api))
              (λ _, EVirtualFreeEx process_handle caller_address caller_size
                      (MEM_FREE api));
  do _ <- sys (CloseHandle api process_handle) (λ _, ECloseHandle process_handle);
  ret result.

End Driver.

(** ** The shape of a run

    The pieces a trace of [call_external_cdecl_function] is made of, named
    after the part of the body that produces them. *)

Section Shape.
Context {World : Type} (api : WinAPI World).

(** Lines 94-99: the three acquisitions made before the stub is written. *)
Definition prologue (process_id argc process_handle caller_address : Z)
    (block : option (list Z)) : list event :=
  [ EOpenProcess (PROCESS_ALL_ACCESS api) FALSE process_id process_handle;
    EVirtualAllocEx process_handle NULL (caller_size argc)
      (Z.lor (MEM_COMMIT api) (MEM_RESERVE api)) (PAGE_EXECUTE_READWRITE api)
      caller_address;
    Emalloc (caller_size argc) block ].

(** Lines 124-129. *)
Definition launch (argc process_handle caller_address : Z) (stub : list Z)
    (thread_handle : Z) : list event :=
  [ EWriteProcessMemory process_handle caller_address stub (caller_size argc);
    ECreateRemoteThread process_handle caller_address thread_handle ].

(** Line 132: one event per evaluation of the loop condition. *)
Definition polls (thread_handle : Z) (answers : list Z) : list event :=
  EWaitForSingleObject thread_handle 0 <$> answers.

(** Lines 135-141. *)
Definition epilogue (argc process_handle caller_address thread_handle : Z)
    (stub : list Z) (code : option Z) : list event :=
  [ EGetExitCodeThread thread_handle code;
    ECloseHandle thread_handle;
    Efree stub;
    EVirtualFreeEx process_handle caller_address (caller_size argc) (MEM_FREE api);
    ECloseHandle process_handle ].

End Shape.

(** ** Reading a trace *)

(** An acquisition that succeeded: a handle, a region or a block that is
    not null. *)
Definition is_acquisition (e : event) : bool :=
  match e with
  | EOpenProcess _ _ _ handle => negb (handle =? NULL)
  | EVirtualAllocEx _ _ _ _ _ base => negb (base =? NULL)
  | Emalloc _ block => bool_decide (is_Some block)
  | ECreateRemoteThread _ _ handle => negb (handle =? NULL)
  | _ => false
  end.

Definition is_release (e : event) : bool :=
  match e with
  | ECloseHandle _ | Efree _ | EVirtualFreeEx _ _ _ _ => true
  | _ => false
  end.

(** A region reserved in the target: a [VirtualAllocEx] that did not answer
    the null address. *)
Definition is_remote_allocation (e : event) : bool :=
  match e with
  | EVirtualAllocEx _ _ _ _ _ base => negb (base =? NULL)
  | _ => false
  end.

Definition is_wait (e : event) : bool :=
  match e with
  | EWaitForSingleObject _ _ _ => true
  | _ => false
  end.

Definition acquisitions (tr : list event) : list event :=
  List.filter is_acquisition tr.

Definition releases (tr : list event) : list event :=
  List.filter is_release tr.

Definition waits (tr : list event) : list event :=
  List.filter is_wait tr.

(** ** What the invoker is told

    The error kinds are those of section 7 of the spec; the source has no
    counterpart for them.  The function hands its caller one [DWORD] and
    nothing else, so a run that returns reports a call result and a run
    that does not return reports nothing. *)

Inductive error_kind :=
| InvalidRequest
| TargetUnavailable
| RemoteAllocationFailed
| RemoteWriteFailed
| RemoteThreadCreationFailed
| ExecutionIndeterminate.

Inductive report :=
| CallResult (value : Z)
| Error (kind : error_kind).

Definition reported {World} (r : result World Z) : option report :=
  match r with
  | Done value _ _ => Some (CallResult value)
  | Halt _ _ _ => None
  end.

(** ** A scripted environment

    An instance of the API whose answers are fixed in advance, to run the
    function on concrete inputs.  The world counts the polls made so far.
    The constants have their [Windows.h] values. *)

Record script := {
  on_OpenProcess : Z → Z;
  on_VirtualAllocEx : Z → Z;
  on_malloc : Z → option (list Z);
  on_CreateRemoteThread : Z → Z → Z;
  on_WaitForSingleObject : nat → Z;
  on_GetExitCodeThread : option Z
}.

Definition scripted (s : script) : WinAPI nat := {|
  PROCESS_ALL_ACCESS := 0x1FFFFF;
  MEM_COMMIT := 0x1000;
  MEM_RESERVE := 0x2000;
  MEM_FREE := 0x10000;
  PAGE_EXECUTE_READWRITE := 0x40;
  OpenProcess := λ _ _ pid w, (on_OpenProcess s pid, w);
  VirtualAllocEx := λ process _ _ _ _ w, (on_VirtualAllocEx s process, w);
  malloc := λ size w, (on_malloc s size, w);
  WriteProcessMemory := λ process address _ _ w,
    (if (process =? NULL) || (address =? NULL) then 0 else 1, w);
  CreateRemoteThread := λ process start w, (on_CreateRemoteThread s process start, w);
  WaitForSingleObject := λ _ _ w, (on_WaitForSingleObject s w, S w);
  GetExitCodeThread := λ _ w, (on_GetExitCodeThread s, w);
  CloseHandle := λ handle w, (if handle =? NULL then 0 else 1, w);
  free := λ _ w, w;
  VirtualFreeEx := λ _ _ _ _ w, (0, w)
|}.

Definition WAIT_OBJECT_0 : Z := 0.
Definition WAIT_TIMEOUT : Z := 0x102.
Definition WAIT_FAILED : Z := 0xFFFFFFFF.

(** A block of [size] bytes with arbitrary contents. *)
Definition fresh_block (size : Z) : option (list Z) :=
  Some (replicate (Z.to_nat size) 0xcd).

(** The target runs, the thread ends on the third poll with exit code
    [code]. *)
Definition live_target (code : Z) : script := {|
  on_OpenProcess := λ _, 0x64;
  on_VirtualAllocEx := λ _, 0x500000;
  on_malloc := fresh_block;
  on_CreateRemoteThread := λ _ _, 0x68;
  on_WaitForSingleObject := λ n, if (n <? 2)%nat then WAIT_TIMEOUT else WAIT_OBJECT_0;
  on_GetExitCodeThread := Some code
|}.

(** No process has the identifier: no handle, no region, no thread, and
    every wait on the null handle fails. *)
Definition no_target : script := {|
  on_OpenProcess := λ _, NULL;
  on_VirtualAllocEx := λ _, NULL;
  on_malloc := fresh_block;
  on_CreateRemoteThread := λ _ _, NULL;
  on_WaitForSingleObject := λ _, WAIT_FAILED;
  on_GetExitCodeThread := None
|}.

(** The target runs but refuses the region: the thread starts at address
    0 and ends at once. *)
Definition no_region : script := {|
  on_OpenProcess := λ _, 0x64;
  on_VirtualAllocEx := λ _, NULL;
  on_malloc := fresh_block;
  on_CreateRemoteThread := λ _ _, 0x68;
  on_WaitForSingleObject := λ _, WAIT_OBJECT_0;
  on_GetExitCodeThread := Some 0xC0000005
|}.


(** The wait the spec describes: one call that blocks until the thread
    ends ([INFINITE] is the [Windows.h] name of that timeout). *)
Definition INFINITE : Z := 0xFFFFFFFF.

Definition single_blocking_wait (tr : list event) : Prop :=
  ∃ handle answer, waits tr = [EWaitForSingleObject handle INFINITE answer].

(** ** The caller as a sequence of instructions

    The rows of the table in the header comment of the function (lines
    60-68), as bytes.  The table names the function address as the
    operand of the call; [E8] calls relative to the next instruction, and
    the operand here is the displacement [call_operand] that lines
    109-113 compute for that address.  The operand of [add esp] is the
    [4 * argc] of the table. *)

Definition le_bytes (v : Z) : list Z :=
  [le_byte 0 v; le_byte 1 v; le_byte 2 v; le_byte 3 v].

(** [68 XXXXXXXX]: push XXXXXXXX. *)
Definition push_imm (a : Z) : list Z := 0x68 :: le_bytes a.

(** The pushes from the last argument to the first, the call, the stack
    adjustment with the operand byte [operand], and the return. *)
Definition caller_code_with (operand function_address caller_address : Z)
    (args : list Z) : list Z :=
  let argc := Z.of_nat (length args) in
  concat (push_imm <$> reverse args)
  ++ 0xe8 :: le_bytes (call_operand function_address caller_address argc)
  ++ [0x83; 0xc4; operand; 0xc3].

(** The caller of the header comment, where the operand of [add esp] is
    [XX = 4 * argc]. *)
Definition caller_code (function_address caller_address : Z) (args : list Z)
  : list Z :=
  caller_code_with (4 * Z.of_nat (length args))
    function_address caller_address args.

(** ** Counting calls *)

(** The function of the environment an event is a call of. *)
Inductive api_call :=
| COpenProcess | CVirtualAllocEx | Cmalloc | CWriteProcessMemory
| CCreateRemoteThread | CWaitForSingleObject | CGetExitCodeThread
| CCloseHandle | Cfree | CVirtualFreeEx.

Definition call_of (e : event) : api_call :=
  match e with
  | EOpenProcess _ _ _ _ => COpenProcess
  | EVirtualAllocEx _ _ _ _ _ _ => CVirtualAllocEx
  | Emalloc _ _ => Cmalloc
  | EWriteProcessMemory _ _ _ _ => CWriteProcessMemory
  | ECreateRemoteThread _ _ _ => CCreateRemoteThread
  | EWaitForSingleObject _ _ _ => CWaitForSingleObject
  | EGetExitCodeThread _ _ => CGetExitCodeThread
  | ECloseHandle _ => CCloseHandle
  | Efree _ => Cfree
  | EVirtualFreeEx _ _ _ _ => CVirtualFreeEx
  end.

Definition api_call_eqb (a b : api_call) : bool :=
  match a, b with
  | COpenProcess, COpenProcess | CVirtualAllocEx, CVirtualAllocEx
  | Cmalloc, Cmalloc | CWriteProcessMemory, CWriteProcessMemory
  | CCreateRemoteThread, CCreateRemoteThread
  | CWaitForSingleObject, CWaitForSingleObject
  | CGetExitCodeThread, CGetExitCodeThread | CCloseHandle, CCloseHandle
  | Cfree, Cfree | CVirtualFreeEx, CVirtualFreeEx => true
  | _, _ => false
  end.

Definition calls_of (c : api_call) (tr : list event) : nat :=
  length (List.filter (λ e, api_call_eqb (call_of e) c) tr).

(** ** When the thread ends

    Some poll among the next [n] on [thread_handle], starting from the
    world [w], is answered 0. *)
Fixpoint answered_within {World} (api : WinAPI World) (n : nat)
    (thread_handle : Z) (w : World) : Prop :=
  match n with
  | O => False
  | S n' =>
      (WaitForSingleObject api thread_handle 0 w).1 = 0 ∨
      answered_within api n' thread_handle
        (WaitForSingleObject api thread_handle 0 w).2
  end.

(** An environment without memory for the stub buffer. *)
Definition no_memory : script := {|
  on_OpenProcess := λ _, 0x64;
  on_VirtualAllocEx := λ _, 0x500000;
  on_malloc := λ _, None;
  on_CreateRemoteThread := λ _ _, 0x68;
  on_WaitForSingleObject := λ _, WAIT_OBJECT_0;
  on_GetExitCodeThread := Some 0
|}.


(** * The command line *)

Module CommandLine.
Import stdpp.strings.
Local Open Scope string_scope.
Local Open Scope list_scope.
Local Open Scope Z_scope.

(** [main] (lines 157-194).

    [atoi] and [strtoul] belong to the C library, not to the repository:
    they are a record of functions on strings, like the process API.  The
    vector [argv] is the list of its [argc] strings; the entry after
    them is the null pointer, which [atoi] may not be given.  The format
    strings of [printf] are spelled as in the source. *)

Record libc := {
  (** [atoi(s)]. *)
  atoi : string → Z;
  (** [strtoul(s, NULL, base)]. *)
  strtoul : string → Z → Z
}.

(** What [main] does to its environment: what it prints and the calls
    of the allocator and the process API. *)
Inductive main_event :=
| Printf (format : string) (values : list Z)
| Api (e : event).

Inductive main_result (World : Type) :=
| Exited (status : Z) (w : World) (log : list main_event)
| Stuck (why : stop) (w : World) (log : list main_event).

Arguments Exited {World}.
Arguments Stuck {World}.

Definition log_of {World} (r : main_result World) : list main_event :=
  match r with Exited _ _ log | Stuck _ _ log => log end.

(** Lines 162-172. *)
Definition usage : list main_event :=
  [ Printf "Invalid arguments number.\n" [];
    Printf "Usage: " [];
    Printf "PROCESS_ID FUNCTION_ADDRESS ARGUMENTS_NUMBER [ARGUMENTS]\n" [];
    Printf "\tPROCESS_ID       - An identifier of a local process, a function of which should be called.\n" [];
    Printf "\tFUNCTION_ADDRESS - A hexdecimal address of the function to be called.\n" [];
    Printf "\tARGUMENTS_NUMBER - A number of arguments that the function takes.\n" [];
    Printf "\tARGUMENTS        - Function arguments (space-separated), if any.\n" [] ].

(** A [DWORD] returned as [int] (line 193), as the compiler of the target
    platform converts it: modulo 2^32 into the signed range. *)
Definition to_int (z : Z) : Z := (z + 2 ^ 31) mod 2 ^ 32 - 2 ^ 31.

(** The block of [malloc] seen through the cast to [unsigned __int32*]:
    one entry for every four bytes. *)
Fixpoint as_dwords (bytes : list Z) : list Z :=
  match bytes with
  | b0 :: b1 :: b2 :: b3 :: rest =>
      Z.lor b0 (Z.lor (Z.shiftl b1 8) (Z.lor (Z.shiftl b2 16) (Z.shiftl b3 24)))
      :: as_dwords rest
  | _ => []
  end.

(** [arguments[idx] = v] for an array of [unsigned __int32]. *)
Definition store_dword (arguments : list Z) (idx v : Z) : option (list Z) :=
  if in_bounds arguments idx
  then Some (<[Z.to_nat idx := dword v]> arguments) else None.

(** Lines 182-183: [for (int i = 0; i < arguments_number; i++)
    arguments[i] = atoi(argv[4 + i]);]. *)
Fixpoint parse_arguments (c : libc) (fuel : nat) (i arguments_number : Z)
    (argv : list string) (arguments : list Z) : option (list Z) :=
  if dword i <? arguments_number then
    match fuel with
    | O => None
    | S fuel' =>
        k ← int_val (4 + i);
        s ← load argv k;
        arguments ← store_dword arguments i (atoi c s);
        i' ← int_val (i + 1);
        parse_arguments c fuel' i' arguments_number argv arguments
    end
  else Some arguments.

(** Lines 157-194.  [fuel] bounds the polls of the wait loop. *)
Definition main {World} (c : libc) (api : WinAPI World) (fuel : nat)
    (argc : Z) (argv : list string) (w : World) : main_result World :=
  if argc <? 4 then Exited (-1) w usage
  else
    match load argv 1, load argv 2, load argv 3 with
    | Some s1, Some s2, Some s3 =>
        let process_id := dword (atoi c s1) in
        let function_address := dword (strtoul c s2 16) in
        let arguments_number := dword (atoi c s3) in
        let '(block, w) := malloc api (mul32 4 arguments_number) w in
        let log := [Api (Emalloc (mul32 4 arguments_number) block)] in
        match
          parse_arguments c (Z.to_nat arguments_number) 0 arguments_number argv
            (from_option as_dwords [] block)
        with
        | None => Stuck Undefined w log
        | Some arguments =>
            match
              call_external_cdecl_function api fuel process_id function_address
                arguments_number arguments w []
            with
            | Halt why w tr => Stuck why w (log ++ (Api <$> tr))
            | Done result w tr =>
                Exited (to_int result)
                  (free api (arguments ≫= le_bytes) w)
                  (log ++ (Api <$> tr)
                       ++ [Printf "Result: 0x%x\n" [result];
                           Api (Efree (arguments ≫= le_bytes))])
            end
        end
    | _, _, _ => Stuck Undefined w []
    end.

(** A C library whose answers are given by a table, to run [main] on
    concrete command lines. *)
Fixpoint table_lookup (table : list (string * Z)) (s : string) : Z :=
  match table with
  | [] => 0
  | (key, value) :: table' =>
      if String.eqb key s then value else table_lookup table' s
  end.

Definition table_libc (decimal hexadecimal : list (string * Z)) : libc := {|
  atoi := table_lookup decimal;
  strtoul := λ s _, table_lookup hexadecimal s
|}.

Definition sum_libc : libc :=
  table_libc [("4242", 4242); ("2", 2); ("1", 1); ("7", 7); ("-1", -1)]
             [("401000", 0x401000)].

End CommandLine.

(** * Properties *)

(** The stub that calls [sum(1, 2)] at 0x401000 from 0x500000. *)
Example sum_stub :
  write_caller 0x401000 0x500000 2 [1; 2] (replicate 19 0xcc) =
  Some [0x68; 2; 0; 0; 0;  0x68; 1; 0; 0; 0;
        0xe8; 0xf1; 0x0f; 0xf0; 0xff;  0x83; 0xc4; 8;  0xc3].
Proof. vm_compute. reflexivity. Qed.

(** The sizes the spec asks to check. *)
Example caller_sizes : caller_size <$> [0; 1; 4; 16] = [9; 14; 29; 89].
Proof. reflexivity. Qed.

(** ** Machine integers: basic facts *)

Lemma dword_small z : is_dword z → dword z = z.
Proof. intros H. apply Z.mod_small. exact H. Qed.

Lemma dword_is_dword z : is_dword (dword z).
Proof. apply Z.mod_pos_bound. reflexivity. Qed.

Lemma dword_idemp_add a b : dword (dword a + b) = dword (a + b).
Proof. unfold dword. apply Zplus_mod_idemp_l. Qed.

Lemma dword_idemp_sub a b : dword (dword a - b) = dword (a - b).
Proof. unfold dword. apply Zminus_mod_idemp_l. Qed.

Lemma dword_idemp_sub_r a b : dword (a - dword b) = dword (a - b).
Proof. unfold dword. apply Zminus_mod_idemp_r. Qed.

Lemma dword_idemp_add_r a b : dword (a + dword b) = dword (a + b).
Proof. unfold dword. apply Zplus_mod_idemp_r. Qed.

Lemma int_val_Some z v : int_val z = Some v ↔ v = z ∧ INT_MIN <= z <= INT_MAX.
Proof.
  unfold int_val.
  destruct ((INT_MIN <=? z) && (z <=? INT_MAX)) eqn:Hb.
  - apply andb_true_iff in Hb as [Hlo%Z.leb_le Hhi%Z.leb_le].
    split; [intros [= <-]; auto | intros [-> _]; reflexivity].
  - split; [discriminate |]. intros [_ [Hlo%Z.leb_le Hhi%Z.leb_le]].
    rewrite Hlo, Hhi in Hb. discriminate.
Qed.

Lemma caller_size_eq argc : caller_size argc = (5 * argc + 9) mod 2 ^ 32.
Proof.
  unfold caller_size, add32, mul32.
  repeat (rewrite <- ?Z.add_assoc, dword_idemp_add).
  unfold dword. f_equal; lia.
Qed.

Lemma call_operand_eq function_address caller_address argc :
  call_operand function_address caller_address argc =
  (function_address - (caller_address + 5 * argc) - 5) mod 2 ^ 32.
Proof.
  unfold call_operand, sub32, add32, mul32.
  rewrite dword_idemp_sub, dword_idemp_add, dword_idemp_add_r.
  replace (function_address - dword (caller_address + argc * 5) - 5)
    with (function_address - 5 - dword (caller_address + argc * 5)) by lia.
  rewrite dword_idemp_sub_r.
  unfold dword. f_equal; lia.
Qed.

(** ** Memory objects: basic facts *)

Lemma in_bounds_true {A} (obj : list A) idx :
  in_bounds obj idx = true ↔ 0 <= idx < Z.of_nat (length obj).
Proof. unfold in_bounds. rewrite andb_true_iff. lia. Qed.

Lemma load_Some {A} (obj : list A) idx x :
  load obj idx = Some x ↔ 0 <= idx ∧ obj !! Z.to_nat idx = Some x.
Proof.
  unfold load. destruct (in_bounds obj idx) eqn:Hb.
  - apply in_bounds_true in Hb. intuition lia.
  - split; [discriminate |]. intros [H0 Hl].
    apply lookup_lt_Some in Hl.
    assert (in_bounds obj idx = true) by (apply in_bounds_true; lia).
    congruence.
Qed.

Lemma load_is_Some {A} (obj : list A) idx :
  0 <= idx < Z.of_nat (length obj) → is_Some (load obj idx).
Proof.
  intros H. unfold load.
  rewrite (proj2 (in_bounds_true obj idx) H).
  apply lookup_lt_is_Some. lia.
Qed.


Lemma load_take {A} (obj : list A) (n : nat) idx :
  idx < Z.of_nat n → load (take n obj) idx = load obj idx.
Proof.
  intros Hlt. unfold load, in_bounds. rewrite length_take.
  destruct (0 <=? idx) eqn:H0; simpl; [| reflexivity].
  apply Z.leb_le in H0.
  rewrite lookup_take_lt by lia.
  destruct (idx <? Z.of_nat (length obj)) eqn:Hl.
  - apply Z.ltb_lt in Hl.
    replace (idx <? Z.of_nat (n `min` length obj)) with true; [reflexivity |].
    symmetry. apply Z.ltb_lt. lia.
  - apply Z.ltb_ge in Hl.
    replace (idx <? Z.of_nat (n `min` length obj)) with false; [reflexivity |].
    symmetry. apply Z.ltb_ge. lia.
Qed.

Lemma store8_Some bytes idx v b :
  store8 bytes idx v = Some b ↔
  0 <= idx < Z.of_nat (length bytes) ∧ b = <[Z.to_nat idx := uint8 v]> bytes.
Proof.
  unfold store8. destruct (in_bounds bytes idx) eqn:Hb.
  - apply in_bounds_true in Hb. split.
    + intros [= <-]. auto.
    + intros [_ ->]. reflexivity.
  - split; [discriminate |]. intros [H _].
    apply in_bounds_true in H. congruence.
Qed.

Lemma store8_is_Some bytes idx v :
  0 <= idx < Z.of_nat (length bytes) → is_Some (store8 bytes idx v).
Proof.
  intros H. unfold store8. rewrite (proj2 (in_bounds_true bytes idx) H). eauto.
Qed.

Lemma store8_length bytes idx v b :
  store8 bytes idx v = Some b → length b = length bytes.
Proof. intros [_ ->]%store8_Some. apply length_insert. Qed.

Lemma load_store8_eq bytes idx v b :
  store8 bytes idx v = Some b → load b idx = Some (uint8 v).
Proof.
  intros [Hi ->]%store8_Some. apply load_Some. split; [lia |].
  apply list_lookup_insert_eq. lia.
Qed.

Lemma load_store8_ne bytes idx v b j :
  store8 bytes idx v = Some b → j ≠ idx → load b j = load bytes j.
Proof.
  intros [Hi ->]%store8_Some Hne. unfold load, in_bounds.
  rewrite length_insert.
  destruct ((0 <=? j) && (j <? Z.of_nat (length bytes))) eqn:Hb; [| reflexivity].
  apply andb_true_iff in Hb as [H0%Z.leb_le _].
  apply list_lookup_insert_ne. lia.
Qed.

(** ** Little-endian fields *)

Lemma le_byte_mod k v : 0 <= k → le_byte k v = (v / 2 ^ (8 * k)) mod 2 ^ 8.
Proof.
  intros Hk. unfold le_byte. change 255 with (Z.ones 8).
  rewrite Z.land_ones by lia. rewrite Z.shiftr_div_pow2 by lia. reflexivity.
Qed.

Lemma uint8_le_byte k v : 0 <= k → uint8 (le_byte k v) = le_byte k v.
Proof.
  intros Hk. rewrite le_byte_mod by exact Hk. unfold uint8.
  apply Z.mod_mod. lia.
Qed.

Lemma testbit_le_byte k v n :
  0 <= k → 0 <= n → Z.testbit (le_byte k v) n = (n <? 8) && Z.testbit v (n + 8 * k).
Proof.
  intros Hk Hn. unfold le_byte. change 255 with (Z.ones 8).
  rewrite Z.land_spec, Z.shiftr_spec, Z.testbit_ones_nonneg by lia.
  apply andb_comm.
Qed.

Lemma le_bytes_combine v :
  Z.lor (le_byte 0 v)
    (Z.lor (Z.shiftl (le_byte 1 v) 8)
       (Z.lor (Z.shiftl (le_byte 2 v) 16) (Z.shiftl (le_byte 3 v) 24))) = dword v.
Proof.
  apply Z.bits_inj'. intros n Hn. unfold dword.
  rewrite Z.testbit_mod_pow2 by lia.
  rewrite !Z.lor_spec, !Z.shiftl_spec by lia.
  rewrite (testbit_le_byte 0) by lia.
  destruct (Z.lt_ge_cases n 8) as [H8 | H8].
  { rewrite !(Z.testbit_neg_r _ (n - _)) by lia.
    replace (n <? 8) with true by (symmetry; apply Z.ltb_lt; lia).
    replace (n <? 32) with true by (symmetry; apply Z.ltb_lt; lia).
    rewrite !orb_false_r. simpl. f_equal. lia. }
  replace (n <? 8) with false by (symmetry; apply Z.ltb_ge; lia).
  rewrite (testbit_le_byte 1) by lia. simpl.
  destruct (Z.lt_ge_cases n 16) as [H16 | H16].
  { rewrite !(Z.testbit_neg_r _ (n - _)) by lia.
    replace (n - 8 <? 8) with true by (symmetry; apply Z.ltb_lt; lia).
    replace (n <? 32) with true by (symmetry; apply Z.ltb_lt; lia).
    rewrite !orb_false_r. simpl. f_equal. lia. }
  replace (n - 8 <? 8) with false by (symmetry; apply Z.ltb_ge; lia).
  rewrite (testbit_le_byte 2) by lia. simpl.
  destruct (Z.lt_ge_cases n 24) as [H24 | H24].
  { rewrite !(Z.testbit_neg_r _ (n - _)) by lia.
    replace (n - 16 <? 8) with true by (symmetry; apply Z.ltb_lt; lia).
    replace (n <? 32) with true by (symmetry; apply Z.ltb_lt; lia).
    rewrite !orb_false_r. simpl. f_equal. lia. }
  replace (n - 16 <? 8) with false by (symmetry; apply Z.ltb_ge; lia).
  rewrite (testbit_le_byte 3) by lia. simpl.
  destruct (Z.lt_ge_cases n 32) as [H32 | H32].
  - replace (n - 24 <? 8) with true by (symmetry; apply Z.ltb_lt; lia).
    replace (n <? 32) with true by (symmetry; apply Z.ltb_lt; lia).
    simpl. f_equal. lia.
  - replace (n - 24 <? 8) with false by (symmetry; apply Z.ltb_ge; lia).
    replace (n <? 32) with false by (symmetry; apply Z.ltb_ge; lia).
    reflexivity.
Qed.

(** What a successful 32-bit store leaves in the buffer. *)
Lemma store32_Some bytes idx v b :
  store32 bytes idx v = Some b →
  0 <= idx ∧ idx + 3 < Z.of_nat (length bytes) ∧ length b = length bytes ∧
  load b idx = Some (le_byte 0 v) ∧ load b (idx + 1) = Some (le_byte 1 v) ∧
  load b (idx + 2) = Some (le_byte 2 v) ∧ load b (idx + 3) = Some (le_byte 3 v) ∧
  ∀ j, j < idx ∨ idx + 3 < j → load b j = load bytes j.
Proof.
  unfold store32. intros H.
  destruct (store8 bytes idx (le_byte 0 v)) as [b0|] eqn:E0; [| discriminate].
  simpl in H.
  destruct (store8 b0 (idx + 1) (le_byte 1 v)) as [b1|] eqn:E1; [| discriminate].
  simpl in H.
  destruct (store8 b1 (idx + 2) (le_byte 2 v)) as [b2|] eqn:E2; [| discriminate].
  simpl in H.
  pose proof (store8_length _ _ _ _ E0) as L0.
  pose proof (store8_length _ _ _ _ E1) as L1.
  pose proof (store8_length _ _ _ _ E2) as L2.
  pose proof (store8_length _ _ _ _ H) as L3.
  pose proof (proj1 (proj1 (store8_Some _ _ _ _) E0)) as B0.
  pose proof (proj1 (proj1 (store8_Some _ _ _ _) H)) as B3.
  split; [lia |]. split; [lia |]. split; [congruence |].
  split.
  { rewrite (load_store8_ne _ _ _ _ idx H) by lia.
    rewrite (load_store8_ne _ _ _ _ idx E2) by lia.
    rewrite (load_store8_ne _ _ _ _ idx E1) by lia.
    rewrite (load_store8_eq _ _ _ _ E0). f_equal. apply uint8_le_byte. lia. }
  split.
  { rewrite (load_store8_ne _ _ _ _ (idx + 1) H) by lia.
    rewrite (load_store8_ne _ _ _ _ (idx + 1) E2) by lia.
    rewrite (load_store8_eq _ _ _ _ E1). f_equal. apply uint8_le_byte. lia. }
  split.
  { rewrite (load_store8_ne _ _ _ _ (idx + 2) H) by lia.
    rewrite (load_store8_eq _ _ _ _ E2). f_equal. apply uint8_le_byte. lia. }
  split.
  { rewrite (load_store8_eq _ _ _ _ H). f_equal. apply uint8_le_byte. lia. }
  intros j Hj.
  rewrite (load_store8_ne _ _ _ _ j H) by lia.
  rewrite (load_store8_ne _ _ _ _ j E2) by lia.
  rewrite (load_store8_ne _ _ _ _ j E1) by lia.
  apply (load_store8_ne _ _ _ _ j E0). lia.
Qed.

Lemma store32_is_Some bytes idx v :
  0 <= idx → idx + 3 < Z.of_nat (length bytes) → is_Some (store32 bytes idx v).
Proof.
  intros H0 H3. unfold store32.
  destruct (store8_is_Some bytes idx (le_byte 0 v)) as [b0 E0]; [lia |].
  rewrite E0. simpl. apply store8_length in E0.
  destruct (store8_is_Some b0 (idx + 1) (le_byte 1 v)) as [b1 E1]; [lia |].
  rewrite E1. simpl. apply store8_length in E1.
  destruct (store8_is_Some b1 (idx + 2) (le_byte 2 v)) as [b2 E2]; [lia |].
  rewrite E2. simpl. apply store8_length in E2.
  apply store8_is_Some. lia.
Qed.

(** Decoding the four bytes of a stored field gives the value back,
    reduced to 32 bits. *)
Lemma load32_le_bytes b idx v :
  load b idx = Some (le_byte 0 v) → load b (idx + 1) = Some (le_byte 1 v) →
  load b (idx + 2) = Some (le_byte 2 v) → load b (idx + 3) = Some (le_byte 3 v) →
  load32 b idx = Some (dword v).
Proof.
  intros H0 H1 H2 H3. unfold load32. rewrite H0, H1, H2, H3. simpl.
  f_equal. apply le_bytes_combine.
Qed.

(** ** The push loop *)

Lemma push_args_unfold fuel i argc args caller_bytes :
  push_args fuel i argc args caller_bytes =
  if dword i <? argc then
    match fuel with
    | O => None
    | S fuel' =>
        off ← int_val (i * 5);
        b ← store8 caller_bytes off 0x68;
        a ← load args (sub32 (sub32 argc (dword i)) 1);
        b ← store32 b (off + 1) a;
        i' ← int_val (i + 1);
        push_args fuel' i' argc args b
    end
  else Some caller_bytes.
Proof. destruct fuel; reflexivity. Qed.

Lemma arg_index argc i :
  is_dword argc → 0 <= i < argc → sub32 (sub32 argc (dword i)) 1 = argc - 1 - i.
Proof.
  unfold is_dword. intros Hc Hi. unfold sub32.
  rewrite (dword_small i) by (unfold is_dword; lia).
  rewrite dword_idemp_sub. rewrite dword_small by (unfold is_dword; lia). lia.
Qed.

(** Invariant of the loop, read off a run that completed: the buffer keeps
    its length, the pushes of arguments [i .. argc-1] are in place, nothing
    else was touched, and the indices stayed inside [int] and the buffer. *)
Lemma push_args_Some fuel : ∀ i argc args b b',
  0 <= i <= INT_MAX → is_dword argc →
  push_args fuel i argc args b = Some b' →
  length b' = length b ∧
  (i < argc → 5 * (argc - 1) <= INT_MAX ∧ 5 * argc <= Z.of_nat (length b)) ∧
  (∀ j, i <= j < argc →
     load b' (5 * j) = Some 0x68 ∧
     ∃ a, load args (argc - 1 - j) = Some a ∧ load32 b' (5 * j + 1) = Some (dword a)) ∧
  (∀ p, p < 5 * i ∨ 5 * argc <= p → load b' p = load b p).
Proof.
  induction fuel as [| fuel IH]; intros i argc args b b' Hi Hc;
    rewrite push_args_unfold;
    destruct (dword i <? argc) eqn:Hlt;
    (rewrite (dword_small i) in Hlt by (unfold is_dword, INT_MAX in *; lia));
    try (apply Z.ltb_ge in Hlt; intros [= <-];
         repeat split; intros; try reflexivity; lia);
    [discriminate |].
  apply Z.ltb_lt in Hlt. intros H.
  destruct (int_val (i * 5)) as [off|] eqn:Eoff; [| discriminate]. simpl in H.
  apply int_val_Some in Eoff as [-> Hoff].
  destruct (store8 b (i * 5) 104) as [b1|] eqn:E1; [| discriminate]. simpl in H.
  destruct (load args _) as [a|] eqn:Ea; [| discriminate]. simpl in H.
  rewrite arg_index in Ea by (auto; lia).
  destruct (store32 b1 (i * 5 + 1) a) as [b2|] eqn:E2; [| discriminate]. simpl in H.
  destruct (int_val (i + 1)) as [i'|] eqn:Ei; [| discriminate]. simpl in H.
  apply int_val_Some in Ei as [-> Hi'].
  apply IH in H; [| lia | exact Hc].
  destruct H as (Hlen & Hbnd & Hpush & Hrest).
  pose proof (store8_length _ _ _ _ E1) as L1.
  apply store32_Some in E2 as (_ & B2 & L2 & F0 & F1 & F2 & F3 & O2).
  split; [congruence |]. split; [| split].
  - intros _. destruct (Z.lt_ge_cases (i + 1) argc) as [Hmore | Hlast].
    + destruct (Hbnd Hmore) as [? ?]. split; [assumption | lia].
    + split; lia.
  - intros j Hj. destruct (Z.eq_dec j i) as [-> | Hne].
    + split.
      * rewrite Hrest by lia. rewrite O2 by lia.
        replace (5 * i) with (i * 5) by lia.
        apply (load_store8_eq _ _ _ _ E1).
      * exists a. split; [exact Ea |].
        replace (5 * i + 1) with (i * 5 + 1) by lia.
        apply load32_le_bytes.
        -- rewrite Hrest by lia. exact F0.
        -- rewrite Hrest by lia. exact F1.
        -- rewrite Hrest by lia. exact F2.
        -- rewrite Hrest by lia. exact F3.
    + apply Hpush. lia.
  - intros p Hp. rewrite Hrest by lia. rewrite O2 by lia.
    apply (load_store8_ne _ _ _ _ p E1). lia.
Qed.

(** The loop completes whenever the indices fit: that is the case as long
    as the largest product [i * 5] is an [int], the array has [argc]
    entries and the buffer has room for [argc] pushes. *)
Lemma push_args_is_Some fuel : ∀ i argc args b,
  0 <= i <= INT_MAX → is_dword argc → argc <= i + Z.of_nat fuel →
  5 * (argc - 1) <= INT_MAX →
  argc <= Z.of_nat (length args) → 5 * argc <= Z.of_nat (length b) →
  is_Some (push_args fuel i argc args b).
Proof.
  induction fuel as [| fuel IH]; intros i argc args b Hi Hc Hfuel Hint Hargs Hbuf;
    rewrite push_args_unfold;
    destruct (dword i <? argc) eqn:Hlt; eauto;
    apply Z.ltb_lt in Hlt;
    (rewrite (dword_small i) in Hlt by (unfold is_dword, INT_MAX in *; lia));
    [lia |].
  unfold INT_MAX in Hint, Hi.
  assert (Eoff : int_val (i * 5) = Some (i * 5))
    by (apply int_val_Some; unfold INT_MIN, INT_MAX; lia).
  rewrite Eoff. simpl.
  destruct (store8_is_Some b (i * 5) 104) as [b1 E1]; [lia |].
  rewrite E1. simpl. apply store8_length in E1.
  rewrite arg_index by (auto; lia).
  destruct (load_is_Some args (argc - 1 - i)) as [a Ea]; [lia |].
  rewrite Ea. simpl.
  destruct (store32_is_Some b1 (i * 5 + 1) a) as [b2 E2]; [lia | lia |].
  rewrite E2. simpl. apply store32_Some in E2 as (_ & _ & L2 & _).
  assert (Ei : int_val (i + 1) = Some (i + 1))
    by (apply int_val_Some; unfold INT_MIN, INT_MAX, is_dword in *; lia).
  rewrite Ei. simpl.
  apply IH; unfold INT_MAX; auto; lia.
Qed.

(** ** Layout of an assembled caller *)


Lemma load32_unchanged b b' idx :
  (∀ p, idx <= p <= idx + 3 → load b' p = load b p) →
  load32 b' idx = load32 b idx.
Proof.
  intros H. unfold load32.
  rewrite (H idx), (H (idx + 1)), (H (idx + 2)), (H (idx + 3)) by lia.
  reflexivity.
Qed.

Lemma write_caller_layout function_address caller_address argc args buf stub :
  is_dword argc →
  write_caller function_address caller_address argc args buf = Some stub →
  length stub = length buf ∧
  caller_layout function_address caller_address argc args stub.
Proof.
  intros Hc H. unfold write_caller in H.
  destruct (push_args _ _ _ _ _) as [b0|] eqn:E0; [| discriminate]. simpl in H.
  apply push_args_Some in E0; [| unfold INT_MAX; lia | exact Hc].
  destruct E0 as (L0 & Hbnd & Hpush & _).
  assert (Hint : 5 * (argc - 1) <= INT_MAX).
  { destruct (Z.lt_ge_cases 0 argc) as [Hpos | Hz].
    - apply Hbnd. exact Hpos.
    - unfold INT_MAX, is_dword in *. lia. }
  assert (Hm : mul32 argc 5 = 5 * argc).
  { unfold mul32. rewrite dword_small; [lia |].
    unfold is_dword, INT_MAX in *. lia. }
  assert (Ha : ∀ k, 0 <= k <= 8 → add32 (mul32 argc 5) k = 5 * argc + k).
  { intros k Hk. unfold add32. rewrite Hm. apply dword_small.
    unfold is_dword, INT_MAX in *. lia. }
  rewrite !Ha, Hm in H by lia.
  destruct (store8 b0 (5 * argc) 232) as [b1|] eqn:E1; [| discriminate]. simpl in H.
  destruct (store32 b1 (5 * argc + 1) _) as [b2|] eqn:E2; [| discriminate]. simpl in H.
  destruct (store8 b2 (5 * argc + 5) 131) as [b3|] eqn:E3; [| discriminate]. simpl in H.
  destruct (store8 b3 (5 * argc + 6) 196) as [b4|] eqn:E4; [| discriminate]. simpl in H.
  destruct (store8 b4 (5 * argc + 7) _) as [b5|] eqn:E5; [| discriminate]. simpl in H.
  pose proof (store8_length _ _ _ _ E1) as L1.
  pose proof (store8_length _ _ _ _ E3) as L3.
  pose proof (store8_length _ _ _ _ E4) as L4.
  pose proof (store8_length _ _ _ _ E5) as L5.
  pose proof (store8_length _ _ _ _ H) as L6.
  pose proof (proj1 (proj1 (store8_Some _ _ _ _) H)) as B6.
  apply store32_Some in E2 as (_ & _ & L2 & F0 & F1 & F2 & F3 & O2).
  assert (Hlate : ∀ p, p < 5 * argc + 5 → load stub p = load b2 p).
  { intros p Hp.
    rewrite (load_store8_ne _ _ _ _ p H) by lia.
    rewrite (load_store8_ne _ _ _ _ p E5) by lia.
    rewrite (load_store8_ne _ _ _ _ p E4) by lia.
    apply (load_store8_ne _ _ _ _ p E3). lia. }
  assert (Hearly : ∀ p, p < 5 * argc → load stub p = load b0 p).
  { intros p Hp. rewrite Hlate by lia. rewrite O2 by lia.
    apply (load_store8_ne _ _ _ _ p E1). lia. }
  split; [congruence |]. split.
  - exact Hint.
  - lia.
  - intros j Hj. destruct (Hpush j Hj) as (P0 & a & Pa & P1).
    split; [rewrite Hearly by lia; exact P0 |].
    exists a. split; [exact Pa |].
    rewrite <- P1. apply load32_unchanged. intros p Hp. apply Hearly. lia.
  - rewrite Hlate by lia. rewrite O2 by lia. apply (load_store8_eq _ _ _ _ E1).
  - rewrite <- (dword_small (call_operand function_address caller_address argc))
      by apply dword_is_dword.
    apply load32_le_bytes; rewrite Hlate by lia; assumption.
  - rewrite (load_store8_ne _ _ _ _ _ H) by lia.
    rewrite (load_store8_ne _ _ _ _ _ E5) by lia.
    rewrite (load_store8_ne _ _ _ _ _ E4) by lia.
    apply (load_store8_eq _ _ _ _ E3).
  - rewrite (load_store8_ne _ _ _ _ _ H) by lia.
    rewrite (load_store8_ne _ _ _ _ _ E5) by lia.
    apply (load_store8_eq _ _ _ _ E4).
  - rewrite (load_store8_ne _ _ _ _ _ H) by lia.
    apply (load_store8_eq _ _ _ _ E5).
  - apply (load_store8_eq _ _ _ _ H).
Qed.

(** Assembly is defined on every request whose indices fit. *)
Lemma write_caller_is_Some function_address caller_address argc args buf :
  is_dword argc → 5 * (argc - 1) <= INT_MAX →
  argc <= Z.of_nat (length args) →
  5 * argc + 9 <= Z.of_nat (length buf) →
  is_Some (write_caller function_address caller_address argc args buf).
Proof.
  intros Hc Hint Hargs Hbuf. unfold write_caller.
  destruct (push_args_is_Some (Z.to_nat argc) 0 argc args buf) as [b0 E0];
    try (unfold INT_MAX, is_dword in *; lia); auto.
  rewrite E0. simpl.
  apply push_args_Some in E0 as (L0 & _); [| unfold INT_MAX; lia | exact Hc].
  assert (Hm : mul32 argc 5 = 5 * argc).
  { unfold mul32. rewrite dword_small; [lia |].
    unfold is_dword, INT_MAX in *. lia. }
  assert (Ha : ∀ k, 0 <= k <= 8 → add32 (mul32 argc 5) k = 5 * argc + k).
  { intros k Hk. unfold add32. rewrite Hm. apply dword_small.
    unfold is_dword, INT_MAX in *. lia. }
  rewrite !Ha, Hm by lia. unfold is_dword in Hc.
  destruct (store8_is_Some b0 (5 * argc) 232) as [b1 E1]; [lia |].
  rewrite E1. simpl. apply store8_length in E1.
  destruct (store32_is_Some b1 (5 * argc + 1)
              (call_operand function_address caller_address argc))
    as [b2 E2]; [lia | lia |].
  rewrite E2. simpl. apply store32_Some in E2 as (_ & _ & L2 & _).
  destruct (store8_is_Some b2 (5 * argc + 5) 131) as [b3 E3]; [lia |].
  rewrite E3. simpl. apply store8_length in E3.
  destruct (store8_is_Some b3 (5 * argc + 6) 196) as [b4 E4]; [lia |].
  rewrite E4. simpl. apply store8_length in E4.
  destruct (store8_is_Some b4 (5 * argc + 7) (mul32 4 argc)) as [b5 E5]; [lia |].
  rewrite E5. simpl. apply store8_length in E5.
  apply store8_is_Some. lia.
Qed.

(** ** The wait loop *)

Section DriverFacts.
Context {World : Type} (api : WinAPI World).

Lemma wait_loop_Done fuel thread_handle : ∀ w tr w' tr',
  wait_loop api fuel thread_handle w tr = Done tt w' tr' →
  ∃ answers,
    Forall (λ a, a ≠ 0) answers ∧ (length answers < fuel)%nat ∧
    tr' = tr ++ (EWaitForSingleObject thread_handle 0 <$> answers)
             ++ [EWaitForSingleObject thread_handle 0 0].
Proof.
  induction fuel as [| fuel IH]; intros w tr w' tr' H; [discriminate |].
  simpl in H. unfold bind, sys in H.
  destruct (WaitForSingleObject api thread_handle 0 w) as [answer w1].
  destruct (answer =? 0) eqn:Ha.
  - apply Z.eqb_eq in Ha. subst answer. injection H as <- <-.
    exists []. split; [constructor |]. split; [simpl; lia | reflexivity].
  - apply Z.eqb_neq in Ha. apply IH in H as (answers & Hnz & Hlen & ->).
    exists (answer :: answers). split; [constructor; assumption |].
    split; [simpl; lia |]. rewrite <- app_assoc. reflexivity.
Qed.

Lemma wait_loop_Halt fuel thread_handle : ∀ w tr why w' tr',
  wait_loop api fuel thread_handle w tr = Halt why w' tr' →
  why = Spinning ∧
  ∃ answers,
    Forall (λ a, a ≠ 0) answers ∧ length answers = fuel ∧
    tr' = tr ++ (EWaitForSingleObject thread_handle 0 <$> answers).
Proof.
  induction fuel as [| fuel IH]; intros w tr why w' tr' H.
  - injection H as <- <- <-. split; [reflexivity |].
    exists []. split; [constructor |]. split; [reflexivity |].
    symmetry. apply app_nil_r.
  - simpl in H. unfold bind, sys in H.
    destruct (WaitForSingleObject api thread_handle 0 w) as [answer w1].
    destruct (answer =? 0) eqn:Ha; [discriminate |].
    apply Z.eqb_neq in Ha. apply IH in H as (-> & answers & Hnz & Hlen & ->).
    split; [reflexivity |].
    exists (answer :: answers). split; [constructor; assumption |].
    split; [simpl; lia |]. rewrite <- app_assoc. reflexivity.
Qed.

(** More fuel does not change a loop that has ended. *)
Lemma wait_loop_more fuel thread_handle : ∀ w tr w' tr' fuel',
  wait_loop api fuel thread_handle w tr = Done tt w' tr' →
  (fuel <= fuel')%nat →
  wait_loop api fuel' thread_handle w tr = Done tt w' tr'.
Proof.
  induction fuel as [| fuel IH]; intros w tr w' tr' fuel' H Hle; [discriminate |].
  destruct fuel' as [| fuel']; [lia |].
  simpl in *. unfold bind, sys in *.
  destruct (WaitForSingleObject api thread_handle 0 w) as [answer w1].
  destruct (answer =? 0); [exact H |].
  apply IH; [exact H | lia].
Qed.

End DriverFacts.

Example sum_call :
  call_external_cdecl_function (scripted (live_target 2)) 5 1234 0x401000 2 [1; 1] O [] =
  Done 2 3%nat
    ([ EOpenProcess 0x1FFFFF 0 1234 0x64;
       EVirtualAllocEx 0x64 0 19 0x3000 0x40 0x500000;
       Emalloc 19 (fresh_block 19);
       EWriteProcessMemory 0x64 0x500000
         [0x68; 1; 0; 0; 0;  0x68; 1; 0; 0; 0;
          0xe8; 0xf1; 0x0f; 0xf0; 0xff;  0x83; 0xc4; 8;  0xc3] 19;
       ECreateRemoteThread 0x64 0x500000 0x68;
       EWaitForSingleObject 0x68 0 0x102;
       EWaitForSingleObject 0x68 0 0x102;
       EWaitForSingleObject 0x68 0 0;
       EGetExitCodeThread 0x68 (Some 2);
       ECloseHandle 0x68;
       Efree [0x68; 1; 0; 0; 0;  0x68; 1; 0; 0; 0;
              0xe8; 0xf1; 0x0f; 0xf0; 0xff;  0x83; 0xc4; 8;  0xc3];
       EVirtualFreeEx 0x64 0x500000 19 0x10000;
       ECloseHandle 0x64 ]).
Proof. vm_compute. reflexivity. Qed.

(** ** The shape of a run *)

Section RunShape.
Context {World : Type} (api : WinAPI World).

(** Every run is one of three: it returns, after the prologue, the launch,
    a series of polls that ends with the answer 0, and the epilogue; or it
    stops in the prologue because writing the stub is not defined; or it
    is still polling. *)
Lemma run_shape fuel process_id function_address argc args w :
  ∃ ph addr blk,
    ph = (OpenProcess api (PROCESS_ALL_ACCESS api) FALSE process_id w).1 ∧
    match
      call_external_cdecl_function api fuel process_id function_address argc args w []
    with
    | Done value _ tr =>
        ∃ stub th answers code,
          blk ≫= write_caller function_address addr argc args = Some stub ∧
          Forall (λ a, a ≠ 0) answers ∧ (length answers < fuel)%nat ∧
          value = default 0 code ∧
          tr = prologue api process_id argc ph addr blk
                 ++ launch argc ph addr stub th
                 ++ polls th (answers ++ [0])
                 ++ epilogue api argc ph addr th stub code
    | Halt Undefined _ tr =>
        blk ≫= write_caller function_address addr argc args = None ∧
        tr = prologue api process_id argc ph addr blk
    | Halt Spinning _ tr =>
        ∃ stub th answers,
          blk ≫= write_caller function_address addr argc args = Some stub ∧
          Forall (λ a, a ≠ 0) answers ∧ length answers = fuel ∧
          tr = prologue api process_id argc ph addr blk
                 ++ launch argc ph addr stub th
                 ++ polls th answers
    end.
Proof.
  unfold call_external_cdecl_function, bind, sys, sys_void, defined, ret.
  destruct (OpenProcess api _ _ _ w) as [ph w1]. simpl app.
  destruct (VirtualAllocEx api ph _ _ _ _ w1) as [addr w2].
  destruct (malloc api _ w2) as [blk w3].
  exists ph, addr, blk. split; [reflexivity |].
  destruct (blk ≫= write_caller function_address addr argc args) as [stub|] eqn:Estub;
    [| split; reflexivity].
  destruct (WriteProcessMemory api ph addr stub _ w3) as [written w4].
  destruct (CreateRemoteThread api ph addr w4) as [th w5].
  destruct (wait_loop api fuel th w5 _) as [[] w6 tr6 | why w6 tr6] eqn:Ewait.
  - apply wait_loop_Done in Ewait as (answers & Hnz & Hlen & ->).
    destruct (GetExitCodeThread api th w6) as [code w7].
    destruct (CloseHandle api th w7) as [c1 w8].
    destruct (VirtualFreeEx api ph addr _ _ (free api stub w8)) as [c2 w9].
    destruct (CloseHandle api ph w9) as [c3 w10].
    exists stub, th, answers, code.
    split; [reflexivity |]. split; [assumption |]. split; [assumption |].
    split; [reflexivity |].
    unfold polls. rewrite fmap_app. simpl. rewrite <- !app_assoc. reflexivity.
  - apply wait_loop_Halt in Ewait as (-> & answers & Hnz & Hlen & ->).
    exists stub, th, answers. auto.
Qed.

(** More polls allowed: the same return. *)
Lemma run_more fuel fuel' process_id function_address argc args w value w' tr :
  call_external_cdecl_function api fuel process_id function_address argc args w []
    = Done value w' tr →
  (fuel <= fuel')%nat →
  call_external_cdecl_function api fuel' process_id function_address argc args w []
    = Done value w' tr.
Proof.
  unfold call_external_cdecl_function, bind, sys, sys_void, defined, ret.
  destruct (OpenProcess api _ _ _ w) as [ph w1]. simpl app.
  destruct (VirtualAllocEx api ph _ _ _ _ w1) as [addr w2].
  destruct (malloc api _ w2) as [blk w3].
  destruct (blk ≫= write_caller function_address addr argc args) as [stub|];
    [| discriminate].
  destruct (WriteProcessMemory api ph addr stub _ w3) as [written w4].
  destruct (CreateRemoteThread api ph addr w4) as [th w5].
  intros H Hle.
  destruct (wait_loop api fuel th w5 _) as [[] w6 tr6 | why w6 tr6] eqn:Ewait;
    [| discriminate].
  rewrite (wait_loop_more api _ _ _ _ _ _ fuel' Ewait Hle). exact H.
Qed.

(** A run that returns has left its wait loop. *)
Lemma run_Done_wait fuel process_id function_address argc args w value w' tr :
  call_external_cdecl_function api fuel process_id function_address argc args w []
    = Done value w' tr →
  ∃ th w5 tr5 w6 tr6, wait_loop api fuel th w5 tr5 = Done tt w6 tr6.
Proof.
  unfold call_external_cdecl_function, bind, sys, sys_void, defined, ret.
  destruct (OpenProcess api _ _ _ w) as [ph w1]. simpl app.
  destruct (VirtualAllocEx api ph _ _ _ _ w1) as [addr w2].
  destruct (malloc api _ w2) as [blk w3].
  destruct (blk ≫= write_caller function_address addr argc args) as [stub|];
    [| discriminate].
  destruct (WriteProcessMemory api ph addr stub _ w3) as [written w4].
  destruct (CreateRemoteThread api ph addr w4) as [th w5].
  intros H.
  destruct (wait_loop api fuel th w5 _) as [[] w6 tr6 | why w6 tr6] eqn:Ewait;
    [| discriminate].
  eauto 6.
Qed.

End RunShape.

(** ** Claims about the stub *)

(** The loop reads no entry of [args] past the first [argc]. *)
Lemma push_args_take fuel : ∀ i argc args b,
  0 <= i <= INT_MAX → is_dword argc →
  push_args fuel i argc (take (Z.to_nat argc) args) b = push_args fuel i argc args b.
Proof.
  induction fuel as [| fuel IH]; intros i argc args b Hi Hc;
    rewrite !(push_args_unfold _ i);
    destruct (dword i <? argc) eqn:Hlt; try reflexivity.
  apply Z.ltb_lt in Hlt.
  rewrite (dword_small i) in Hlt by (unfold is_dword, INT_MAX in *; lia).
  destruct (int_val (i * 5)) as [off|]; [simpl | reflexivity].
  destruct (store8 b off 104) as [b1|]; [simpl | reflexivity].
  rewrite arg_index by (auto; lia).
  rewrite load_take by (unfold is_dword in Hc; lia).
  destruct (load args (argc - 1 - i)) as [a|]; [simpl | reflexivity].
  destruct (store32 b1 (off + 1) a) as [b2|]; [simpl | reflexivity].
  destruct (int_val (i + 1)) as [i'|] eqn:Ei; [simpl | reflexivity].
  apply int_val_Some in Ei as [-> Hi']. apply IH; [lia | exact Hc].
Qed.

Lemma write_caller_take function_address caller_address argc args buf :
  is_dword argc →
  write_caller function_address caller_address argc (take (Z.to_nat argc) args) buf
  = write_caller function_address caller_address argc args buf.
Proof.
  intros Hc. unfold write_caller.
  rewrite push_args_take by (auto; unfold INT_MAX; lia). reflexivity.
Qed.

Lemma caller_size_exact argc :
  0 <= argc → 5 * argc + 9 < 2 ^ 32 → caller_size argc = 5 * argc + 9.
Proof. intros H0 H1. rewrite caller_size_eq. apply Z.mod_small. lia. Qed.

(** C1.  For every argument count [argc], in the buffer of
    [caller_size argc] bytes that the function allocates, the stub is
    assembled whenever the indices fit, and every stub assembled is exactly
    [5 * argc + 9] bytes long, which is also the size computed for it: the
    [argc] pushes of 5 bytes each, the call of 5 bytes at [5 * argc], the 3
    bytes of the stack adjustment at [5 * argc + 5] and the return at
    [5 * argc + 8].  With no argument it is 9 bytes long. *)
Theorem stub_length function_address caller_address argc args buf :
  is_dword argc → Z.of_nat (length buf) = caller_size argc →
  (5 * (argc - 1) <= INT_MAX → argc <= Z.of_nat (length args) →
   is_Some (write_caller function_address caller_address argc args buf)) ∧
  (∀ stub,
     write_caller function_address caller_address argc args buf = Some stub →
     Z.of_nat (length stub) = 5 * argc + 9 ∧
     caller_size argc = 5 * argc + 9 ∧
     caller_layout function_address caller_address argc args stub).
Proof.
  intros Hc Hbuf. split.
  - intros Hint Hargs. apply write_caller_is_Some; try assumption.
    rewrite Hbuf, caller_size_exact; unfold is_dword, INT_MAX in *; lia.
  - intros stub Hrun.
    apply write_caller_layout in Hrun as [Hlen Hlay]; [| exact Hc].
    pose proof (lay_room _ _ _ _ _ Hlay) as Hroom.
    assert (Hle : caller_size argc <= 5 * argc + 9).
    { rewrite caller_size_eq. apply Z.mod_le; unfold is_dword in Hc; lia. }
    repeat split; try apply Hlay; lia.
Qed.

Lemma stub_length_witness :
  let stub := [0xe8; 0xfb; 0x0f; 0xf0; 0xff;  0x83; 0xc4; 0;  0xc3] in
  Z.of_nat (length stub) = 5 * 0 + 9 ∧
  caller_size 0 = 5 * 0 + 9 ∧
  caller_layout 0x401000 0x500000 0 [] stub.
Proof.
  refine (proj2 (stub_length 0x401000 0x500000 0 [] (replicate 9 0xcc) _ _) _ _).
  - unfold is_dword. lia.
  - reflexivity.
  - reflexivity.
Defined.

(** The size itself is computed in 32 bits: for 858993458 arguments it is
    3.  No stub is assembled for such a count. *)
Lemma caller_size_wraps :
  is_dword 858993458 ∧ caller_size 858993458 = 3 ∧
  ∀ function_address caller_address args buf,
    Z.of_nat (length buf) = caller_size 858993458 →
    write_caller function_address caller_address 858993458 args buf = None.
Proof.
  split; [unfold is_dword; lia |]. split; [reflexivity |].
  intros function_address caller_address args buf Hbuf.
  destruct (write_caller _ _ _ _ _) as [stub|] eqn:Hrun; [| reflexivity].
  apply write_caller_layout in Hrun as [_ Hlay]; [| unfold is_dword; lia].
  pose proof (lay_int _ _ _ _ _ Hlay) as Hint. unfold INT_MAX in Hint. lia.
Qed.

(** C2.  For an argument list of length [argc], the stub is assembled
    whenever the indices fit, and every stub assembled has, for each
    [0 <= i < argc], the push opcode 0x68 at offset [5 * i] followed by the
    32-bit value of argument [argc - 1 - i]: the last argument is pushed
    first and the first argument last. *)
Theorem pushes_in_reverse_order function_address caller_address argc args buf :
  is_dword argc → Z.of_nat (length args) = argc → Forall is_dword args →
  (5 * (argc - 1) <= INT_MAX → Z.of_nat (length buf) = caller_size argc →
   is_Some (write_caller function_address caller_address argc args buf)) ∧
  (∀ stub,
     write_caller function_address caller_address argc args buf = Some stub →
     ∀ i, 0 <= i < argc →
       load stub (5 * i) = Some 0x68 ∧
       ∃ a, args !! Z.to_nat (argc - 1 - i) = Some a ∧
            load32 stub (5 * i + 1) = Some a).
Proof.
  intros Hc Hargs Hdw. split.
  - intros Hint Hbuf. apply write_caller_is_Some; try assumption; [lia |].
    rewrite Hbuf, caller_size_exact; unfold is_dword, INT_MAX in *; lia.
  - intros stub Hrun i Hi.
    apply write_caller_layout in Hrun as [_ Hlay]; [| exact Hc].
    destruct (lay_push _ _ _ _ _ Hlay i Hi) as (Hop & a & Ha & Himm).
    split; [exact Hop |]. exists a.
    apply load_Some in Ha as [_ Ha]. split; [exact Ha |].
    rewrite Himm. f_equal. apply dword_small.
    rewrite Forall_forall in Hdw. apply Hdw.
    apply list_elem_of_In. eapply list_elem_of_lookup_2. exact Ha.
Qed.

Lemma pushes_in_reverse_order_witness :
  let stub := [0x68; 30; 0; 0; 0;  0x68; 20; 0; 0; 0;  0x68; 10; 0; 0; 0;
               0xe8; 0xec; 0x0f; 0xf0; 0xff;  0x83; 0xc4; 12;  0xc3] in
  load stub (5 * 0) = Some 0x68 ∧
  ∃ a, [10; 20; 30] !! Z.to_nat (3 - 1 - 0) = Some a ∧ load32 stub (5 * 0 + 1) = Some a.
Proof.
  refine (proj2 (pushes_in_reverse_order 0x401000 0x500000 3 [10; 20; 30]
                   (replicate 24 0xcc) _ _ _) _ _ 0 _).
  - unfold is_dword. lia.
  - reflexivity.
  - repeat constructor; unfold is_dword; lia.
  - reflexivity.
  - lia.
Defined.

(** C3.  For every function address, load address and argument count, the
    stub is assembled whenever the indices fit, and every stub assembled
    has the call opcode 0xe8 at offset [5 * argc] followed by the 32-bit
    field [function_address - (caller_address + 5 * argc) - 5] modulo
    2^32: the target relative to the address after the 5-byte call. *)
Theorem call_displacement function_address caller_address argc args buf :
  is_dword argc →
  (5 * (argc - 1) <= INT_MAX → argc <= Z.of_nat (length args) →
   Z.of_nat (length buf) = caller_size argc →
   is_Some (write_caller function_address caller_address argc args buf)) ∧
  (∀ stub,
     write_caller function_address caller_address argc args buf = Some stub →
     load stub (5 * argc) = Some 0xe8 ∧
     load32 stub (5 * argc + 1) =
     Some ((function_address - (caller_address + 5 * argc) - 5) mod 2 ^ 32)).
Proof.
  intros Hc. split.
  - intros Hint Hargs Hbuf. apply write_caller_is_Some; try assumption.
    rewrite Hbuf, caller_size_exact; unfold is_dword, INT_MAX in *; lia.
  - intros stub Hrun.
    apply write_caller_layout in Hrun as [_ Hlay]; [| exact Hc].
    split; [apply Hlay |].
    rewrite <- call_operand_eq. apply Hlay.
Qed.

Lemma call_displacement_witness :
  let stub := [0x68; 2; 0; 0; 0;  0x68; 1; 0; 0; 0;
               0xe8; 0xf1; 0x0f; 0xf0; 0xff;  0x83; 0xc4; 8;  0xc3] in
  load stub (5 * 2) = Some 0xe8 ∧
  load32 stub (5 * 2 + 1) = Some ((0x401000 - (0x500000 + 5 * 2) - 5) mod 2 ^ 32).
Proof.
  refine (proj2 (call_displacement 0x401000 0x500000 2 [1; 2]
                   (replicate 19 0xcc) _) _ _).
  - unfold is_dword. lia.
  - reflexivity.
Defined.

(** The byte the function stores as the operand of [add esp]: [4 * argc]
    converted to [unsigned __int8]. *)
Lemma stack_adjustment_byte function_address caller_address argc args buf stub :
  is_dword argc →
  write_caller function_address caller_address argc args buf = Some stub →
  load stub (5 * argc + 5) = Some 0x83 ∧
  load stub (5 * argc + 6) = Some 0xc4 ∧
  load stub (5 * argc + 7) = Some ((4 * argc) mod 2 ^ 8).
Proof.
  intros Hc Hrun.
  apply write_caller_layout in Hrun as [_ Hlay]; [| exact Hc].
  split; [apply Hlay |]. split; [apply Hlay |].
  rewrite (lay_imm _ _ _ _ _ Hlay). f_equal.
  unfold uint8, mul32, dword.
  apply Z.mod_mod_divide. exists (2 ^ 24). reflexivity.
Qed.

(** C4 fails on the code.  With 64 arguments the stub is assembled, the
    stack adjustment that removes them is [4 * 64 = 256], and the operand
    byte at offset [5 * 64 + 7] is 0. *)
Theorem stack_adjustment_truncated :
  let argc := 64 in
  let args := replicate 64 7 in
  ∃ stub,
    write_caller 0x401000 0x500000 argc args
      (replicate (Z.to_nat (caller_size argc)) 0xcd) = Some stub ∧
    load stub (5 * argc + 7) = Some 0 ∧ 4 * argc = 256.
Proof.
  vm_compute. eexists. split; [reflexivity |]. split; reflexivity.
Qed.

(** No stub is assembled in a buffer that is too short for it. *)
Lemma write_caller_short function_address caller_address argc args buf :
  is_dword argc → Z.of_nat (length buf) < 5 * argc + 9 →
  write_caller function_address caller_address argc args buf = None.
Proof.
  intros Hc Hshort.
  destruct (write_caller _ _ _ _ _) as [stub|] eqn:Hrun; [| reflexivity].
  apply write_caller_layout in Hrun as [Hlen Hlay]; [| exact Hc].
  pose proof (lay_room _ _ _ _ _ Hlay). lia.
Qed.

(** Nor for a count whose last push index [i * 5] is not an [int]. *)
Lemma write_caller_int_overflow function_address caller_address argc args buf :
  is_dword argc → INT_MAX < 5 * (argc - 1) →
  write_caller function_address caller_address argc args buf = None.
Proof.
  intros Hc Hover.
  destruct (write_caller _ _ _ _ _) as [stub|] eqn:Hrun; [| reflexivity].
  apply write_caller_layout in Hrun as [_ Hlay]; [| exact Hc].
  pose proof (lay_int _ _ _ _ _ Hlay). lia.
Qed.

(** C9, as amended.  Loads and stores of the embedding are bounds-checked,
    so a defined result means that no access left its object.  For every
    argument count up to 429496730, for which the largest product [i * 5]
    is an [int], with an array of at least [argc] entries and the buffer of
    [caller_size argc = 5 * argc + 9] bytes, writing the stub is defined
    even when only the first [argc] entries of the array exist, and reads
    nothing else. *)
Theorem assembly_in_bounds function_address caller_address argc args buf :
  is_dword argc → 5 * (argc - 1) <= INT_MAX →
  argc <= Z.of_nat (length args) →
  Z.of_nat (length buf) = caller_size argc →
  Z.of_nat (length buf) = 5 * argc + 9 ∧
  is_Some (write_caller function_address caller_address argc
             (take (Z.to_nat argc) args) buf) ∧
  write_caller function_address caller_address argc (take (Z.to_nat argc) args) buf
  = write_caller function_address caller_address argc args buf.
Proof.
  intros Hc Hint Hargs Hbuf.
  assert (Hsize : caller_size argc = 5 * argc + 9)
    by (apply caller_size_exact; unfold is_dword, INT_MAX in *; lia).
  split; [congruence |]. split; [| apply write_caller_take; exact Hc].
  rewrite write_caller_take by exact Hc.
  apply write_caller_is_Some; try assumption. lia.
Qed.

Lemma assembly_in_bounds_witness :
  Z.of_nat (length (replicate 19 0xcc)) = 5 * 2 + 9 ∧
  is_Some (write_caller 0x401000 0x500000 2 (take (Z.to_nat 2) [1; 2; 3]) (replicate 19 0xcc)) ∧
  write_caller 0x401000 0x500000 2 (take (Z.to_nat 2) [1; 2; 3]) (replicate 19 0xcc)
  = write_caller 0x401000 0x500000 2 [1; 2; 3] (replicate 19 0xcc).
Proof.
  apply (assembly_in_bounds 0x401000 0x500000 2 [1; 2; 3] (replicate 19 0xcc)).
  - unfold is_dword. lia.
  - unfold INT_MAX. lia.
  - simpl. lia.
  - reflexivity.
Defined.

(** C9 as stated fails where the 32-bit size wraps.  With 858993458
    arguments, all of them present in the array, the buffer has the 3
    bytes the function asks [malloc] for, and writing the stub leaves it. *)
Lemma assembly_out_of_bounds :
  ¬ (∀ argc args buf,
       is_dword argc → argc <= Z.of_nat (length args) →
       Z.of_nat (length buf) = caller_size argc →
       is_Some (write_caller 0x401000 0x500000 argc args buf)).
Proof.
  intros Hclaim.
  destruct (Hclaim 858993458 (replicate (Z.to_nat 858993458) 0) [0xcd; 0xcd; 0xcd])
    as [stub Hrun].
  - unfold is_dword. lia.
  - rewrite length_replicate. lia.
  - reflexivity.
  - rewrite write_caller_short in Hrun; [discriminate | unfold is_dword; lia |].
    change (Z.of_nat (length [205; 205; 205])) with 3. lia.
Qed.

(** ** Claims about the driver *)

Lemma filter_polls f thread_handle answers :
  f (EWaitForSingleObject thread_handle 0 0) = false →
  (∀ a b, f (EWaitForSingleObject thread_handle 0 a)
          = f (EWaitForSingleObject thread_handle 0 b)) →
  List.filter f (polls thread_handle answers) = [].
Proof.
  intros Hf Hsame. induction answers as [| a answers IH]; [reflexivity |].
  unfold polls in *. simpl. rewrite (Hsame a 0), Hf. exact IH.
Qed.

Lemma waits_polls thread_handle answers :
  waits (polls thread_handle answers) = polls thread_handle answers.
Proof.
  induction answers as [| a answers IH]; [reflexivity |].
  unfold waits, polls in *. simpl. f_equal. exact IH.
Qed.

Section DriverClaims.
Context {World : Type} (api : WinAPI World).

(** C8, as amended.  The function checks nothing about its request: for
    every argument count and every array it first calls [OpenProcess],
    [VirtualAllocEx] and [malloc], the last two with the size
    [caller_size argc], and only then writes the stub; when that is not
    defined for the request the three calls have been made all the same.
    No run reports an error of any kind. *)
Theorem request_is_not_validated fuel process_id function_address argc args w :
  let r :=
    call_external_cdecl_function api fuel process_id function_address argc args w [] in
  (∀ kind, reported r ≠ Some (Error kind)) ∧
  ∃ ph addr blk rest,
    trace_of r = prologue api process_id argc ph addr blk ++ rest ∧
    (blk ≫= write_caller function_address addr argc args = None → rest = []).
Proof.
  intros r. split.
  - intros kind. destruct r; simpl; congruence.
  - destruct (run_shape api fuel process_id function_address argc args w)
      as (ph & addr & blk & _ & Hshape).
    fold r in Hshape. exists ph, addr, blk.
    destruct r as [value w' tr | [] w' tr]; simpl.
    + destruct Hshape as (stub & th & answers & code & Hstub & _ & _ & _ & ->).
      eexists. split; [reflexivity | congruence].
    + destruct Hshape as [_ ->]. exists []. split; reflexivity.
    + destruct Hshape as (stub & th & answers & Hstub & _ & _ & ->).
      eexists. split; [reflexivity | congruence].
Qed.

(** C6, as amended.  A run that returns has made exactly four releases, in
    this order: [CloseHandle] on the thread handle, [free] of the stub
    buffer (the very bytes it wrote and handed to [WriteProcessMemory]),
    [VirtualFreeEx] of the remote block, [CloseHandle] on the process
    handle.  They are made whatever the acquisitions answered, so their
    number is the number of acquisitions that succeeded exactly when none
    of the three handles and addresses is null.  A run that does not
    return has released nothing. *)
Theorem releases_are_unconditional fuel process_id function_address argc args w :
  match
    call_external_cdecl_function api fuel process_id function_address argc args w []
  with
  | Done _ _ tr =>
      ∃ ph addr blk stub th answers code,
        write_caller function_address addr argc args blk = Some stub ∧
        tr = prologue api process_id argc ph addr (Some blk)
               ++ launch argc ph addr stub th
               ++ polls th answers
               ++ epilogue api argc ph addr th stub code ∧
        releases tr =
          [ ECloseHandle th; Efree stub;
            EVirtualFreeEx ph addr (caller_size argc) (MEM_FREE api);
            ECloseHandle ph ] ∧
        (length (acquisitions tr) = length (releases tr)
         ↔ ph ≠ NULL ∧ addr ≠ NULL ∧ th ≠ NULL)
  | Halt _ _ tr => releases tr = []
  end.
Proof.
  destruct (run_shape api fuel process_id function_address argc args w)
    as (ph & addr & blk & _ & Hshape).
  destruct (call_external_cdecl_function _ _ _ _ _ _ _ _)
    as [value w' tr | [] w' tr].
  - destruct Hshape as (stub & th & answers & code & Hstub & _ & _ & _ & ->).
    destruct blk as [blk|]; [| discriminate].
    exists ph, addr, blk, stub, th, (answers ++ [0]), code.
    split; [exact Hstub |]. split; [reflexivity |].
    unfold releases, acquisitions.
    rewrite !List.filter_app.
    rewrite !filter_polls by (reflexivity || (intros; reflexivity)).
    split; [reflexivity |].
    simpl. unfold NULL.
    destruct (Z.eqb_spec ph 0), (Z.eqb_spec addr 0), (Z.eqb_spec th 0);
      simpl; split; intros H; try discriminate; try tauto; try lia.
  - destruct Hshape as [_ ->]. reflexivity.
  - destruct Hshape as (stub & th & answers & _ & _ & _ & ->).
    unfold releases. rewrite !List.filter_app.
    rewrite filter_polls by (reflexivity || (intros; reflexivity)).
    reflexivity.
Qed.

(** C7, as amended.  The function waits by polling: every wait it makes is
    [WaitForSingleObject(thread_handle, 0)], a call that does not block,
    and it makes the next one as soon as the answer is not 0.  A run that
    returns has polled until the first answer 0; a run that is still in the
    loop has polled [fuel] times. *)
Theorem wait_is_a_polling_loop fuel process_id function_address argc args w :
  let r :=
    call_external_cdecl_function api fuel process_id function_address argc args w [] in
  ∃ th answers,
    waits (trace_of r) = EWaitForSingleObject th 0 <$> answers ∧
    match r with
    | Done _ _ tr =>
        (∃ ph addr, ECreateRemoteThread ph addr th ∈ tr) ∧
        ∃ busy, answers = busy ++ [0] ∧ Forall (λ a, a ≠ 0) busy ∧
                (length busy < fuel)%nat
    | Halt Spinning _ tr =>
        (∃ ph addr, ECreateRemoteThread ph addr th ∈ tr) ∧
        Forall (λ a, a ≠ 0) answers ∧ length answers = fuel
    | Halt Undefined _ _ => answers = []
    end.
Proof.
  intros r.
  destruct (run_shape api fuel process_id function_address argc args w)
    as (ph & addr & blk & _ & Hshape).
  fold r in Hshape. destruct r as [value w' tr | [] w' tr]; simpl.
  - destruct Hshape as (stub & th & answers & code & _ & Hnz & Hlen & _ & ->).
    exists th, (answers ++ [0]). split; [| split; [| eauto]].
    + unfold waits. rewrite !List.filter_app.
      fold (waits (polls th (answers ++ [0]))).
      rewrite waits_polls. simpl. rewrite app_nil_r. reflexivity.
    + exists ph, addr. apply elem_of_app. right. apply elem_of_app. left.
      unfold launch. apply list_elem_of_further, list_elem_of_here.
  - destruct Hshape as [_ ->]. exists 0, []. split; reflexivity.
  - destruct Hshape as (stub & th & answers & _ & Hnz & Hlen & ->).
    exists th, answers. split; [| split; [| auto]].
    + unfold waits. rewrite !List.filter_app. fold (waits (polls th answers)).
      rewrite waits_polls. reflexivity.
    + exists ph, addr. apply elem_of_app. right. apply elem_of_app. left.
      unfold launch. apply list_elem_of_further, list_elem_of_here.
Qed.


End DriverClaims.

(** ** The claims on concrete runs *)

(** C5 as stated fails: no process has the identifier, [OpenProcess]
    answers the null handle, and the function reports no
    [TargetUnavailable]: it goes through its steps with the null handle
    and is still polling after four polls. *)
Lemma open_failure_counterexample :
  let api := scripted no_target in
  let r := call_external_cdecl_function api 4 4242 0x401000 2 [1; 1] O [] in
  (OpenProcess api (PROCESS_ALL_ACCESS api) FALSE 4242 O).1 = NULL ∧
  reported r ≠ Some (Error TargetUnavailable) ∧
  reported r = None ∧
  trace_of r =
    [ EOpenProcess 0x1FFFFF 0 4242 0;
      EVirtualAllocEx 0 0 19 0x3000 0x40 0;
      Emalloc 19 (fresh_block 19);
      EWriteProcessMemory 0 0
        [0x68; 1; 0; 0; 0;  0x68; 1; 0; 0; 0;
         0xe8; 0xf1; 0x0f; 0x40; 0x00;  0x83; 0xc4; 8;  0xc3] 19;
      ECreateRemoteThread 0 0 0;
      EWaitForSingleObject 0 0 WAIT_FAILED;
      EWaitForSingleObject 0 0 WAIT_FAILED;
      EWaitForSingleObject 0 0 WAIT_FAILED;
      EWaitForSingleObject 0 0 WAIT_FAILED ].
Proof.
  vm_compute. split; [reflexivity |]. split; [discriminate |].
  split; reflexivity.
Qed.

(** C6 as stated fails: the target refuses the region, three acquisitions
    succeed, and the function makes its four releases. *)
Lemma releases_counterexample :
  let r :=
    call_external_cdecl_function (scripted no_region) 1 4242 0x401000 2 [1; 1] O [] in
  reported r = Some (CallResult 0xC0000005) ∧
  length (acquisitions (trace_of r)) = 3%nat ∧
  length (releases (trace_of r)) = 4%nat ∧
  length (releases (trace_of r)) ≠ length (acquisitions (trace_of r)).
Proof.
  vm_compute. split; [reflexivity |]. split; [reflexivity |].
  split; [reflexivity | discriminate].
Qed.

(** C7 as stated fails: the thread ends on the third poll, and the
    function has made three waits with timeout 0. *)
Lemma wait_counterexample :
  let r :=
    call_external_cdecl_function (scripted (live_target 2)) 5 4242 0x401000 2 [1; 1] O [] in
  waits (trace_of r) =
    [ EWaitForSingleObject 0x68 0 WAIT_TIMEOUT;
      EWaitForSingleObject 0x68 0 WAIT_TIMEOUT;
      EWaitForSingleObject 0x68 0 WAIT_OBJECT_0 ] ∧
  ¬ single_blocking_wait (trace_of r).
Proof.
  split; [vm_compute; reflexivity |].
  intros (handle & answer & H). vm_compute in H. discriminate.
Qed.

(** C8 as stated fails: the count -1, which is 4294967295 as a [DWORD],
    is not rejected; the function opens the process, asks for a region of
    4 bytes in it and for a block of 4 bytes, and stops where writing the
    stub is not defined. *)
Lemma request_counterexample :
  let argc := dword (-1) in
  let r :=
    call_external_cdecl_function (scripted (live_target 2)) 5 4242 0x401000 argc [] O [] in
  argc = 4294967295 ∧
  reported r ≠ Some (Error InvalidRequest) ∧
  r = Halt Undefined O
        [ EOpenProcess 0x1FFFFF 0 4242 0x64;
          EVirtualAllocEx 0x64 0 4 0x3000 0x40 0x500000;
          Emalloc 4 (fresh_block 4) ].
Proof.
  lazy. split; [reflexivity |]. split; [discriminate | reflexivity].
Qed.



(** * Further properties *)

(** ** The stub in closed form *)

Lemma store8_at pre x post idx v :
  idx = Z.of_nat (length pre) →
  store8 (pre ++ x :: post) idx v = Some (pre ++ uint8 v :: post).
Proof.
  intros ->. unfold store8.
  assert (Hb : in_bounds (pre ++ x :: post) (Z.of_nat (length pre)) = true).
  { apply in_bounds_true. rewrite length_app. simpl. lia. }
  rewrite Hb, Nat2Z.id. f_equal.
  replace (length pre) with (length pre + 0)%nat at 1 by lia.
  rewrite insert_app_r. reflexivity.
Qed.

Lemma store32_at pre x0 x1 x2 x3 post idx v :
  idx = Z.of_nat (length pre) →
  store32 (pre ++ x0 :: x1 :: x2 :: x3 :: post) idx v
  = Some (pre ++ le_bytes v ++ post).
Proof.
  intros ->. unfold store32.
  rewrite store8_at by reflexivity. simpl.
  rewrite (cons_middle _ pre), app_assoc.
  rewrite store8_at by (rewrite length_app; simpl; lia). simpl.
  rewrite (cons_middle _ (pre ++ _)), app_assoc.
  rewrite store8_at by (rewrite !length_app; simpl; lia). simpl.
  rewrite (cons_middle _ ((pre ++ _) ++ _)), app_assoc.
  rewrite store8_at by (rewrite !length_app; simpl; lia).
  rewrite !uint8_le_byte by lia.
  rewrite <- !app_assoc. reflexivity.
Qed.

Lemma length_pushes (l : list Z) :
  length (concat (push_imm <$> l)) = (5 * length l)%nat.
Proof.
  induction l as [| a l IH]; [reflexivity |].
  rewrite fmap_cons. change (concat (push_imm a :: (push_imm <$> l)))
    with (push_imm a ++ concat (push_imm <$> l)).
  rewrite length_app, IH. simpl. lia.
Qed.

(** The loop with [k] iterations to go, on a buffer split at the next
    push: the iterations fill the next [5 * k] bytes with the pushes of
    the first [k] arguments, last one first. *)
Lemma push_args_code (k : nat) : ∀ fuel argc args pre rest,
  is_dword argc → (k <= fuel)%nat → Z.of_nat k <= argc →
  5 * (argc - 1) <= INT_MAX → argc <= Z.of_nat (length args) →
  Z.of_nat (length pre) = 5 * (argc - Z.of_nat k) →
  (5 * k <= length rest)%nat →
  push_args fuel (argc - Z.of_nat k) argc args (pre ++ rest)
  = Some (pre ++ concat (push_imm <$> reverse (take k args)) ++ drop (5 * k) rest).
Proof.
  induction k as [| k IH];
    intros fuel argc args pre rest Hc Hfuel Hk Hint Hargs Hpre Hrest;
    rewrite push_args_unfold;
    (rewrite (dword_small (argc - _)) by (unfold is_dword in *; lia)).
  { replace (argc - Z.of_nat 0 <? argc) with false
      by (symmetry; apply Z.ltb_ge; lia).
    reflexivity. }
  replace (argc - Z.of_nat (S k) <? argc) with true
    by (symmetry; apply Z.ltb_lt; lia).
  destruct fuel as [| fuel]; [lia |].
  unfold INT_MAX in Hint. unfold is_dword in Hc.
  assert (Eoff : int_val ((argc - Z.of_nat (S k)) * 5)
                 = Some ((argc - Z.of_nat (S k)) * 5))
    by (apply int_val_Some; unfold INT_MIN, INT_MAX; lia).
  rewrite Eoff. simpl mbind.
  destruct rest as [| x0 [| x1 [| x2 [| x3 [| x4 rest]]]]];
    simpl in Hrest; try lia.
  rewrite store8_at by lia. simpl mbind.
  unfold sub32. rewrite dword_idemp_sub.
  rewrite (dword_small (argc - _ - 1)) by (unfold is_dword; lia).
  destruct (args !! k) as [a|] eqn:Ea;
    [| apply lookup_ge_None in Ea; lia].
  assert (Eload : load args (argc - (argc - Z.of_nat (S k)) - 1) = Some a).
  { apply load_Some. split; [lia |].
    replace (Z.to_nat (argc - (argc - Z.of_nat (S k)) - 1)) with k by lia.
    exact Ea. }
  rewrite Eload. simpl mbind.
  rewrite (cons_middle _ pre), app_assoc.
  rewrite store32_at by (rewrite length_app; simpl; lia). simpl mbind.
  assert (Ei : int_val (argc - Z.of_nat (S k) + 1) = Some (argc - Z.of_nat k))
    by (apply int_val_Some; unfold INT_MIN, INT_MAX; lia).
  rewrite Ei. simpl mbind.
  change (le_byte 0 a :: le_byte 1 a :: le_byte 2 a :: le_byte 3 a :: rest)
    with (le_bytes a ++ rest).
  rewrite (app_assoc (pre ++ _)).
  rewrite (IH fuel argc args ((pre ++ [uint8 104]) ++ le_bytes a) rest);
    try (unfold is_dword, INT_MAX; lia).
  2: { rewrite !length_app. simpl. lia. }
  f_equal. rewrite (take_S_r _ _ _ Ea), reverse_snoc.
  rewrite fmap_cons. simpl concat.
  replace (drop (5 * S k) (x0 :: x1 :: x2 :: x3 :: x4 :: rest))
    with (drop (5 * k) rest)
    by (replace (5 * S k)%nat with (5 + 5 * k)%nat by lia; reflexivity).
  unfold push_imm. rewrite <- !app_assoc. reflexivity.
Qed.

(** On a well-formed request the function fills the whole buffer: the
    pushes, the call, the stack adjustment with the operand reduced to one
    byte, and the return, whatever the block held. *)
Lemma write_caller_code function_address caller_address argc args buf :
  is_dword argc → 5 * (argc - 1) <= INT_MAX →
  argc <= Z.of_nat (length args) →
  Z.of_nat (length buf) = caller_size argc →
  write_caller function_address caller_address argc args buf
  = Some (caller_code_with (uint8 (mul32 4 argc)) function_address caller_address
            (take (Z.to_nat argc) args)).
Proof.
  intros Hc Hint Hargs Hbuf.
  assert (Hsize : caller_size argc = 5 * argc + 9)
    by (apply caller_size_exact; unfold is_dword, INT_MAX in *; lia).
  rewrite Hsize in Hbuf. unfold write_caller.
  pose proof (push_args_code (Z.to_nat argc) (Z.to_nat argc) argc args [] buf) as Hloop.
  rewrite Z2Nat.id in Hloop by (unfold is_dword in Hc; lia).
  rewrite Z.sub_diag, !app_nil_l in Hloop.
  rewrite Hloop; try assumption; try lia; [| reflexivity]. clear Hloop.
  assert (Htail : length (drop (5 * Z.to_nat argc) buf) = 9%nat).
  { rewrite length_drop. unfold is_dword in Hc. lia. }
  destruct (drop (5 * Z.to_nat argc) buf)
    as [| t0 [| t1 [| t2 [| t3 [| t4 [| t5 [| t6 [| t7 [| t8 [| t9 tail]]]]]]]]]];
    try discriminate.
  clear Htail. cbn [mbind option_bind].
  assert (Hm : mul32 argc 5 = 5 * argc).
  { unfold mul32. rewrite dword_small; [lia |].
    unfold is_dword, INT_MAX in *. lia. }
  assert (Ha : ∀ k, 0 <= k <= 8 → add32 (mul32 argc 5) k = 5 * argc + k).
  { intros k Hk. unfold add32. rewrite Hm. apply dword_small.
    unfold is_dword, INT_MAX in *. lia. }
  rewrite !Ha, Hm by lia.
  set (pushes := concat (push_imm <$> reverse (take (Z.to_nat argc) args))).
  assert (Hlen : Z.of_nat (length pushes) = 5 * argc).
  { unfold pushes. rewrite length_pushes, length_reverse, length_take.
    unfold is_dword in Hc. lia. }
  rewrite store8_at by lia. cbn [mbind option_bind].
  rewrite (cons_middle (uint8 232)), app_assoc.
  rewrite store32_at by (rewrite length_app; simpl; lia). cbn [mbind option_bind].
  rewrite app_assoc.
  rewrite store8_at by (rewrite !length_app; simpl; lia). cbn [mbind option_bind].
  rewrite (cons_middle (uint8 131)), app_assoc.
  rewrite store8_at by (rewrite !length_app; simpl; lia). cbn [mbind option_bind].
  rewrite (cons_middle (uint8 196)), app_assoc.
  rewrite store8_at by (rewrite !length_app; simpl; lia). cbn [mbind option_bind].
  rewrite (cons_middle (uint8 (mul32 4 argc))), app_assoc.
  rewrite store8_at by (rewrite !length_app; simpl; lia).
  f_equal. unfold caller_code_with. fold pushes.
  rewrite length_take.
  replace (Z.of_nat (Z.to_nat argc `min` length args)) with argc
    by (unfold is_dword in Hc; lia).
  rewrite <- !app_assoc. reflexivity.
Qed.

(** With at most 63 arguments the operand byte written is the [4 * argc]
    of the header comment. *)
Lemma caller_code_small function_address caller_address argc args :
  is_dword argc → argc <= 63 →
  argc <= Z.of_nat (length args) →
  caller_code_with (uint8 (mul32 4 argc)) function_address caller_address
    (take (Z.to_nat argc) args)
  = caller_code function_address caller_address (take (Z.to_nat argc) args).
Proof.
  intros Hc H63 Hargs.
  unfold caller_code. f_equal.
  rewrite length_take.
  replace (Z.of_nat (Z.to_nat argc `min` length args)) with argc
    by (unfold is_dword in Hc; lia).
  unfold uint8, mul32. unfold is_dword in Hc.
  rewrite dword_small by (unfold is_dword; lia).
  apply Z.mod_small. lia.
Qed.

(** X1.  On a well-formed request with at most 63 arguments the function
    fills the whole buffer, and the stub is the caller of the header
    comment for the first [argc] arguments, byte for byte, whatever the
    block held when [malloc] returned it. *)
Theorem stub_is_caller_code function_address caller_address argc args buf :
  is_dword argc → argc <= 63 →
  argc <= Z.of_nat (length args) →
  Z.of_nat (length buf) = caller_size argc →
  write_caller function_address caller_address argc args buf
  = Some (caller_code function_address caller_address (take (Z.to_nat argc) args)).
Proof.
  intros Hc H63 Hargs Hbuf.
  rewrite write_caller_code by (try assumption; unfold INT_MAX; lia).
  f_equal. apply caller_code_small; assumption.
Qed.

Lemma stub_is_caller_code_witness :
  write_caller 0x401000 0x500000 2 [1; 2; 3] (replicate 19 0xcd)
  = Some (caller_code 0x401000 0x500000 (take (Z.to_nat 2) [1; 2; 3])).
Proof.
  apply (stub_is_caller_code 0x401000 0x500000 2 [1; 2; 3] (replicate 19 0xcd)).
  - unfold is_dword. lia.
  - lia.
  - simpl. lia.
  - reflexivity.
Defined.

(** X2.  The operand byte of [add esp] in an assembled stub is [4 * argc]
    reduced modulo 256, and that is [4 * argc] itself exactly for counts
    up to 63. *)
Theorem stack_adjustment_fits function_address caller_address argc args buf stub :
  is_dword argc →
  write_caller function_address caller_address argc args buf = Some stub →
  load stub (5 * argc + 7) = Some ((4 * argc) mod 2 ^ 8) ∧
  ((4 * argc) mod 2 ^ 8 = 4 * argc ↔ argc <= 63).
Proof.
  intros Hc Hrun. split.
  - apply (stack_adjustment_byte _ _ _ _ _ _ Hc Hrun).
  - unfold is_dword in Hc. split.
    + intros Heq. pose proof (Z.mod_pos_bound (4 * argc) (2 ^ 8)). lia.
    + intros Hle. apply Z.mod_small. lia.
Qed.

Lemma stack_adjustment_fits_witness :
  load [0x68; 2; 0; 0; 0;  0x68; 1; 0; 0; 0;
        0xe8; 0xf1; 0x0f; 0xf0; 0xff;  0x83; 0xc4; 8;  0xc3] (5 * 2 + 7)
  = Some ((4 * 2) mod 2 ^ 8) ∧
  ((4 * 2) mod 2 ^ 8 = 4 * 2 ↔ 2 <= 63).
Proof.
  apply (stack_adjustment_fits 0x401000 0x500000 2 [1; 2] (replicate 19 0xcc)).
  - unfold is_dword. lia.
  - reflexivity.
Defined.

(** ** Further properties of the driver *)

Lemma filter_polls_other c thread_handle answers :
  c ≠ CWaitForSingleObject →
  List.filter (λ e, api_call_eqb (call_of e) c) (polls thread_handle answers) = [].
Proof.
  intros Hc. apply filter_polls; [| reflexivity].
  destruct c; try reflexivity. congruence.
Qed.

Section DriverExtras.
Context {World : Type} (api : WinAPI World).

(** X3.  The stub is assembled for the address it is used at.  Whenever
    the function creates the remote thread, the start address it passes
    is the address [VirtualAllocEx] answered, the stub was handed to
    [WriteProcessMemory] for that same address just before, whatever that
    call answered, and the call in the stub, executed there, lands on
    [function_address]: start + 5 * argc + 5 + operand is
    [function_address] modulo 2^32. *)
Theorem stub_is_placed_where_it_runs
    fuel process_id function_address argc args w ph start th :
  is_dword argc →
  ECreateRemoteThread ph start th
    ∈ trace_of (call_external_cdecl_function api fuel process_id
                  function_address argc args w []) →
  ∃ blk stub operand rest,
    trace_of (call_external_cdecl_function api fuel process_id
                function_address argc args w [])
    = prologue api process_id argc ph start blk
        ++ launch argc ph start stub th ++ rest ∧
    blk ≫= write_caller function_address start argc args = Some stub ∧
    load32 stub (5 * argc + 1) = Some operand ∧
    (start + 5 * argc + 5 + operand) mod 2 ^ 32 = function_address mod 2 ^ 32.
Proof.
  intros Hc Hin.
  destruct (run_shape api fuel process_id function_address argc args w)
    as (ph' & addr & blk & _ & Hshape).
  destruct (call_external_cdecl_function _ _ _ _ _ _ _ _)
    as [value w' tr | [] w' tr]; simpl in Hin.
  - destruct Hshape as (stub & th' & answers & code & Hstub & _ & _ & _ & ->).
    assert (ph' = ph ∧ addr = start ∧ th' = th) as (-> & -> & ->).
    { rewrite !elem_of_app in Hin. unfold prologue, launch, polls, epilogue in Hin.
      rewrite !elem_of_cons, list_elem_of_fmap in Hin.
      destruct Hin as [Hin | [Hin | [Hin | Hin]]].
      - destruct Hin as [? | [? | [? | Hin]]]; try discriminate.
        apply not_elem_of_nil in Hin. contradiction.
      - destruct Hin as [? | [Hin | Hin]]; try discriminate.
        + injection Hin as -> -> ->. auto.
        + apply not_elem_of_nil in Hin. contradiction.
      - destruct Hin as (a & ? & _). discriminate.
      - destruct Hin as [? | [? | [? | [? | [? | Hin]]]]]; try discriminate.
        apply not_elem_of_nil in Hin. contradiction. }
    destruct blk as [b|]; [| discriminate]. simpl in Hstub.
    pose proof (write_caller_layout _ _ _ _ _ _ Hc Hstub) as [_ Hlay].
    exists (Some b), stub, (call_operand function_address start argc).
    eexists. split; [simpl; reflexivity |]. split; [exact Hstub |].
    split; [apply Hlay |].
    rewrite call_operand_eq, Zplus_mod_idemp_r. f_equal. lia.
  - destruct Hshape as [_ ->]. unfold prologue in Hin.
    rewrite !elem_of_cons in Hin.
    destruct Hin as [? | [? | [? | Hin]]]; try discriminate.
    apply not_elem_of_nil in Hin. contradiction.
  - destruct Hshape as (stub & th' & answers & Hstub & _ & _ & ->).
    assert (ph' = ph ∧ addr = start ∧ th' = th) as (-> & -> & ->).
    { rewrite !elem_of_app in Hin. unfold prologue, launch, polls in Hin.
      rewrite !elem_of_cons, list_elem_of_fmap in Hin.
      destruct Hin as [Hin | [Hin | Hin]].
      - destruct Hin as [? | [? | [? | Hin]]]; try discriminate.
        apply not_elem_of_nil in Hin. contradiction.
      - destruct Hin as [? | [Hin | Hin]]; try discriminate.
        + injection Hin as -> -> ->. auto.
        + apply not_elem_of_nil in Hin. contradiction.
      - destruct Hin as (a & ? & _). discriminate. }
    destruct blk as [b|]; [| discriminate]. simpl in Hstub.
    pose proof (write_caller_layout _ _ _ _ _ _ Hc Hstub) as [_ Hlay].
    exists (Some b), stub, (call_operand function_address start argc).
    eexists. split; [simpl; reflexivity |]. split; [exact Hstub |].
    split; [apply Hlay |].
    rewrite call_operand_eq, Zplus_mod_idemp_r. f_equal. lia.
Qed.

End DriverExtras.

Section DriverExtras2.
Context {World : Type} (api : WinAPI World).

(** X4.  When [malloc] returns the null pointer the function does not
    notice: it has opened the process and asked for the remote region,
    writing the stub through the null pointer is not defined, and neither
    the handle nor the region is released. *)
Theorem malloc_failure_is_not_handled fuel process_id function_address argc args w :
  (∀ size w0, (malloc api size w0).1 = None) →
  ∃ ph addr w',
    call_external_cdecl_function api fuel process_id function_address argc args w []
    = Halt Undefined w' (prologue api process_id argc ph addr None) ∧
    releases (prologue api process_id argc ph addr None) = [].
Proof.
  intros Hnull.
  unfold call_external_cdecl_function, bind, sys, sys_void, defined, ret.
  destruct (OpenProcess api _ _ _ w) as [ph w1]. simpl app.
  destruct (VirtualAllocEx api ph _ _ _ _ w1) as [addr w2].
  pose proof (Hnull (caller_size argc) w2) as Hblk.
  destruct (malloc api _ w2) as [blk w3]. simpl in Hblk. subst blk.
  exists ph, addr, w3. split; reflexivity.
Qed.

(** X5.  The function never repeats a step other than the poll: in every
    run each of [OpenProcess], [VirtualAllocEx] and [malloc] is called
    exactly once, each of [WriteProcessMemory], [CreateRemoteThread],
    [GetExitCodeThread], [free] and [VirtualFreeEx] at most once, and
    [CloseHandle] at most twice. *)
Theorem steps_are_not_repeated fuel process_id function_address argc args w :
  let tr :=
    trace_of (call_external_cdecl_function api fuel process_id
                function_address argc args w []) in
  calls_of COpenProcess tr = 1%nat ∧
  calls_of CVirtualAllocEx tr = 1%nat ∧
  calls_of Cmalloc tr = 1%nat ∧
  (calls_of CWriteProcessMemory tr <= 1)%nat ∧
  (calls_of CCreateRemoteThread tr <= 1)%nat ∧
  (calls_of CGetExitCodeThread tr <= 1)%nat ∧
  (calls_of Cfree tr <= 1)%nat ∧
  (calls_of CVirtualFreeEx tr <= 1)%nat ∧
  (calls_of CCloseHandle tr <= 2)%nat.
Proof.
  intros tr. subst tr.
  destruct (run_shape api fuel process_id function_address argc args w)
    as (ph & addr & blk & _ & Hshape).
  destruct (call_external_cdecl_function _ _ _ _ _ _ _ _)
    as [value w' tr | [] w' tr]; simpl trace_of.
  - destruct Hshape as (stub & th & answers & code & _ & _ & _ & _ & ->).
    unfold calls_of. rewrite !List.filter_app.
    rewrite !filter_polls_other by discriminate.
    simpl. repeat split; lia.
  - destruct Hshape as [_ ->]. unfold calls_of. simpl. repeat split; lia.
  - destruct Hshape as (stub & th & answers & _ & _ & _ & ->).
    unfold calls_of. rewrite !List.filter_app.
    rewrite !filter_polls_other by discriminate.
    simpl. repeat split; lia.
Qed.

Lemma wait_loop_unanswered fuel thread_handle : ∀ w tr,
  (∀ h w0, (WaitForSingleObject api h 0 w0).1 ≠ 0) →
  ∃ w' tr', wait_loop api fuel thread_handle w tr = Halt Spinning w' tr'.
Proof.
  induction fuel as [| fuel IH]; intros w tr Hbusy; simpl; [eauto |].
  unfold bind, sys.
  pose proof (Hbusy thread_handle w) as Hne.
  destruct (WaitForSingleObject api thread_handle 0 w) as [answer w1].
  simpl in Hne. apply Z.eqb_neq in Hne. rewrite Hne. apply IH. exact Hbusy.
Qed.

(** X6.  If no poll is ever answered 0, which is what a wait on a null or
    invalid handle gives as much as a thread that does not end, the
    function never returns, however many polls it makes, and it releases
    nothing. *)
Theorem unanswered_wait_never_returns fuel process_id function_address argc args w :
  (∀ h w0, (WaitForSingleObject api h 0 w0).1 ≠ 0) →
  let r :=
    call_external_cdecl_function api fuel process_id function_address argc args w [] in
  reported r = None ∧ releases (trace_of r) = [].
Proof.
  intros Hbusy r.
  destruct (run_shape api fuel process_id function_address argc args w)
    as (ph & addr & blk & _ & Hshape).
  fold r in Hshape.
  destruct r as [value w' tr | [] w' tr] eqn:Hrun; simpl.
  - exfalso. apply run_Done_wait in Hrun as (th & w5 & tr5 & w6 & tr6 & Hloop).
    destruct (wait_loop_unanswered fuel th w5 tr5 Hbusy) as (w7 & tr7 & Hspin).
    congruence.
  - destruct Hshape as [_ ->]. split; reflexivity.
  - destruct Hshape as (stub & th & answers & _ & _ & _ & ->).
    split; [reflexivity |].
    unfold releases. rewrite !List.filter_app.
    rewrite filter_polls by (reflexivity || (intros; reflexivity)).
    reflexivity.
Qed.

Lemma wait_loop_answered n thread_handle : ∀ w tr,
  answered_within api n thread_handle w →
  ∃ w' tr', wait_loop api n thread_handle w tr = Done tt w' tr'.
Proof.
  induction n as [| n IH]; intros w tr Hans; [destruct Hans |].
  simpl in *. unfold bind, sys.
  destruct (WaitForSingleObject api thread_handle 0 w) as [answer w1].
  simpl in Hans. destruct (answer =? 0) eqn:Ha.
  - unfold ret. eauto.
  - destruct Hans as [-> | Hans]; [discriminate |]. apply IH. exact Hans.
Qed.

(** X7.  On a well-formed request with at most 63 arguments, with a
    [malloc] that succeeds and a thread that ends within [n] polls, the
    function returns after at most [n] polls.  Its run is the prologue,
    the launch, the polls and the epilogue for the handle that
    [OpenProcess] answered and the address that [VirtualAllocEx] answered
    for that handle: the [5 * argc + 9] bytes handed to
    [WriteProcessMemory], and freed at the end, are the caller of the
    header comment assembled for that address, which is also where the
    thread is started.  It returns the exit code stored, or 0. *)
Theorem well_formed_call_returns n process_id function_address argc args w :
  is_dword argc → argc <= 63 →
  argc <= Z.of_nat (length args) →
  (∀ size w0, 0 <= size →
     ∃ b, (malloc api size w0).1 = Some b ∧ Z.of_nat (length b) = size) →
  (∀ h w0, answered_within api n h w0) →
  let opened := OpenProcess api (PROCESS_ALL_ACCESS api) FALSE process_id w in
  let ph := opened.1 in
  let addr :=
    (VirtualAllocEx api ph NULL (caller_size argc)
       (Z.lor (MEM_COMMIT api) (MEM_RESERVE api)) (PAGE_EXECUTE_READWRITE api)
       opened.2).1 in
  let stub := caller_code function_address addr (take (Z.to_nat argc) args) in
  ∃ w' b th busy code,
    call_external_cdecl_function api n process_id function_address argc args w []
    = Done (default 0 code) w'
        (prologue api process_id argc ph addr (Some b)
           ++ launch argc ph addr stub th
           ++ polls th (busy ++ [0])
           ++ epilogue api argc ph addr th stub code) ∧
    caller_size argc = 5 * argc + 9 ∧
    Z.of_nat (length stub) = 5 * argc + 9 ∧
    (length busy < n)%nat ∧ Forall (λ a, a ≠ 0) busy.
Proof.
  intros Hc H63 Hargs Hmalloc Hends opened ph addr stub.
  subst opened ph addr stub.
  assert (Hsize : caller_size argc = 5 * argc + 9)
    by (apply caller_size_exact; unfold is_dword in *; lia).
  unfold call_external_cdecl_function, bind, sys, sys_void, defined, ret.
  destruct (OpenProcess api _ _ _ w) as [ph w1]. cbn [fst snd]. simpl app.
  destruct (VirtualAllocEx api ph _ _ _ _ w1) as [addr w2]. cbn [fst snd].
  destruct (Hmalloc (caller_size argc) w2) as (b & Hb & Hlen);
    [unfold is_dword in Hc; lia |].
  destruct (malloc api _ w2) as [blk w3]. simpl in Hb. subst blk.
  cbn [mbind option_bind].
  assert (Hstub : write_caller function_address addr argc args b
                  = Some (caller_code function_address addr (take (Z.to_nat argc) args))).
  { rewrite write_caller_code by (try assumption; unfold INT_MAX; lia).
    f_equal. apply caller_code_small; assumption. }
  rewrite Hstub.
  destruct (WriteProcessMemory api ph addr _ _ w3) as [written w4].
  destruct (CreateRemoteThread api ph addr w4) as [th w5].
  match goal with
  | |- context [wait_loop api n th w5 ?tr5] =>
      destruct (wait_loop_answered n th w5 tr5 (Hends th w5)) as (w6 & tr6 & Hloop);
      rewrite Hloop;
      apply wait_loop_Done in Hloop as (busy & Hnz & Hbusy & ->)
  end.
  destruct (GetExitCodeThread api th w6) as [code w7].
  destruct (CloseHandle api th w7) as [c1 w8].
  destruct (VirtualFreeEx api ph addr _ _ (free api _ w8)) as [c2 w9].
  destruct (CloseHandle api ph w9) as [c3 w10].
  exists w10, b, th, busy, code.
  split; [| split; [exact Hsize | split; [| split; assumption]]].
  - f_equal. unfold prologue, launch, polls, epilogue.
    rewrite fmap_app. simpl. rewrite <- !app_assoc. reflexivity.
  - apply write_caller_layout in Hstub as [Hl _]; [| exact Hc]. lia.
Qed.

End DriverExtras2.

(** ** The claims about a failed open and about the return *)

Section DriverClaims2.
Context {World : Type} (api : WinAPI World).

Lemma wait_loop_busy fuel thread_handle : ∀ w tr,
  (∀ w0, (WaitForSingleObject api thread_handle 0 w0).1 ≠ 0) →
  ∃ w' answers,
    wait_loop api fuel thread_handle w tr
    = Halt Spinning w' (tr ++ polls thread_handle answers) ∧
    length answers = fuel ∧ Forall (λ a, a ≠ 0) answers.
Proof.
  induction fuel as [| fuel IH]; intros w tr Hbusy; simpl.
  - exists w, []. split; [rewrite app_nil_r; reflexivity |].
    split; [reflexivity | constructor].
  - unfold bind, sys.
    pose proof (Hbusy w) as Hne.
    destruct (WaitForSingleObject api thread_handle 0 w) as [answer w1].
    simpl in Hne. rewrite (proj2 (Z.eqb_neq answer 0) Hne).
    destruct (IH w1 (tr ++ [EWaitForSingleObject thread_handle 0 answer]) Hbusy)
      as (w' & answers & -> & Hlen & Hnz).
    exists w', (answer :: answers). split.
    + unfold polls. rewrite <- app_assoc. reflexivity.
    + split; [simpl; lia | constructor; assumption].
Qed.

(** C5, as amended.  When [OpenProcess] answers the null handle the
    function does not fail with [TargetUnavailable]; it reports nothing.
    It passes the null handle on.  Where the API fails on a null handle
    ([VirtualAllocEx] and [CreateRemoteThread] answer null, a wait on the
    null handle is answered with a non-zero value), no region is reserved
    in the target on that path, and the function goes on all the same:
    [malloc], the stub written for the address 0, [WriteProcessMemory]
    and [CreateRemoteThread] with the null handle, and then one poll
    after the other of the null thread handle, without end.  It stops
    earlier only where writing the stub is not defined. *)
Theorem open_failure_goes_unreported fuel process_id function_address argc args w :
  (OpenProcess api (PROCESS_ALL_ACCESS api) FALSE process_id w).1 = NULL →
  (∀ address size type protect w0,
     (VirtualAllocEx api NULL address size type protect w0).1 = NULL) →
  (∀ start w0, (CreateRemoteThread api NULL start w0).1 = NULL) →
  (∀ w0, (WaitForSingleObject api NULL 0 w0).1 ≠ 0) →
  let r :=
    call_external_cdecl_function api fuel process_id function_address argc args w [] in
  let w1 := (OpenProcess api (PROCESS_ALL_ACCESS api) FALSE process_id w).2 in
  let w2 :=
    (VirtualAllocEx api NULL NULL (caller_size argc)
       (Z.lor (MEM_COMMIT api) (MEM_RESERVE api)) (PAGE_EXECUTE_READWRITE api) w1).2 in
  let blk := (malloc api (caller_size argc) w2).1 in
  reported r = None ∧
  List.filter is_remote_allocation (trace_of r) = [] ∧
  match blk ≫= write_caller function_address NULL argc args with
  | None => trace_of r = prologue api process_id argc NULL NULL blk
  | Some stub =>
      ∃ answers,
        length answers = fuel ∧ Forall (λ a, a ≠ 0) answers ∧
        trace_of r = prologue api process_id argc NULL NULL blk
                       ++ launch argc NULL NULL stub NULL
                       ++ polls NULL answers
  end.
Proof.
  intros Hopen Halloc Hthread Hwait r w1 w2 blk. subst r w1 w2 blk.
  unfold call_external_cdecl_function, bind, sys, sys_void, defined, ret.
  destruct (OpenProcess api _ _ _ w) as [ph w1]. simpl in Hopen. subst ph.
  cbn [fst snd]. simpl app.
  pose proof (Halloc NULL (caller_size argc)
                (Z.lor (MEM_COMMIT api) (MEM_RESERVE api))
                (PAGE_EXECUTE_READWRITE api) w1) as Haddr.
  destruct (VirtualAllocEx api NULL _ _ _ _ w1) as [addr w2].
  simpl in Haddr. subst addr. cbn [fst snd].
  destruct (malloc api _ w2) as [blk w3]. cbn [fst snd].
  destruct (blk ≫= write_caller function_address NULL argc args) as [stub|];
    [| repeat split; reflexivity].
  destruct (WriteProcessMemory api NULL NULL stub _ w3) as [written w4].
  pose proof (Hthread NULL w4) as Hth.
  destruct (CreateRemoteThread api NULL NULL w4) as [th w5].
  simpl in Hth. subst th.
  match goal with
  | |- context [wait_loop api fuel NULL w5 ?tr5] =>
      destruct (wait_loop_busy fuel NULL w5 tr5 Hwait)
        as (w6 & answers & -> & Hlen & Hnz)
  end.
  cbn [reported trace_of]. split; [reflexivity |]. split.
  - rewrite !List.filter_app.
    rewrite filter_polls by (reflexivity || (intros; reflexivity)).
    reflexivity.
  - exists answers. split; [exact Hlen |]. split; [exact Hnz |].
    unfold prologue, launch. rewrite <- !app_assoc. reflexivity.
Qed.


End DriverClaims2.

Lemma open_failure_goes_unreported_witness :
  let api := scripted no_target in
  let r := call_external_cdecl_function api 4 4242 0x401000 2 [1; 1] O [] in
  reported r = None ∧
  List.filter is_remote_allocation (trace_of r) = [] ∧
  match fresh_block (caller_size 2) ≫= write_caller 0x401000 NULL 2 [1; 1] with
  | None => trace_of r = prologue api 4242 2 NULL NULL (fresh_block (caller_size 2))
  | Some stub =>
      ∃ answers,
        length answers = 4%nat ∧ Forall (λ a, a ≠ 0) answers ∧
        trace_of r = prologue api 4242 2 NULL NULL (fresh_block (caller_size 2))
                       ++ launch 2 NULL NULL stub NULL
                       ++ polls NULL answers
  end.
Proof.
  apply (open_failure_goes_unreported (scripted no_target) 4 4242 0x401000 2 [1; 1] O).
  - reflexivity.
  - intros address size type protect w0. reflexivity.
  - intros start w0. reflexivity.
  - intros w0. simpl. discriminate.
Defined.

Lemma stub_is_placed_where_it_runs_witness :
  ∃ blk stub operand rest,
    trace_of (call_external_cdecl_function (scripted (live_target 2)) 5 4242
                0x401000 2 [1; 1] O [])
    = prologue (scripted (live_target 2)) 4242 2 0x64 0x500000 blk
        ++ launch 2 0x64 0x500000 stub 0x68 ++ rest ∧
    blk ≫= write_caller 0x401000 0x500000 2 [1; 1] = Some stub ∧
    load32 stub (5 * 2 + 1) = Some operand ∧
    (0x500000 + 5 * 2 + 5 + operand) mod 2 ^ 32 = 0x401000 mod 2 ^ 32.
Proof.
  apply (stub_is_placed_where_it_runs (scripted (live_target 2)) 5 4242
           0x401000 2 [1; 1] O 0x64 0x500000 0x68).
  - unfold is_dword. lia.
  - vm_compute. do 4 apply list_elem_of_further. apply list_elem_of_here.
Defined.

Lemma malloc_failure_is_not_handled_witness :
  ∃ ph addr w',
    call_external_cdecl_function (scripted no_memory) 3 4242 0x401000 2 [1; 1] O []
    = Halt Undefined w' (prologue (scripted no_memory) 4242 2 ph addr None) ∧
    releases (prologue (scripted no_memory) 4242 2 ph addr None) = [].
Proof.
  apply (malloc_failure_is_not_handled (scripted no_memory) 3 4242 0x401000 2 [1; 1] O).
  intros size w0. reflexivity.
Defined.

Lemma unanswered_wait_never_returns_witness :
  let r :=
    call_external_cdecl_function (scripted no_target) 7 4242 0x401000 2 [1; 1] O [] in
  reported r = None ∧ releases (trace_of r) = [].
Proof.
  apply (unanswered_wait_never_returns (scripted no_target) 7 4242 0x401000 2 [1; 1] O).
  intros h w0. simpl. discriminate.
Defined.

Lemma live_target_answers code : ∀ h w0,
  answered_within (scripted (live_target code)) 3 h w0.
Proof.
  intros h w0. simpl.
  destruct w0 as [| [| w0]]; simpl; auto.
Qed.

Lemma well_formed_call_returns_witness :
  let stub := caller_code 0x401000 0x500000 [1; 1] in
  ∃ w' b th busy code,
    call_external_cdecl_function (scripted (live_target 2)) 3 4242 0x401000 2 [1; 1] O []
    = Done (default 0 code) w'
        (prologue (scripted (live_target 2)) 4242 2 0x64 0x500000 (Some b)
           ++ launch 2 0x64 0x500000 stub th
           ++ polls th (busy ++ [0])
           ++ epilogue (scripted (live_target 2)) 2 0x64 0x500000 th stub code) ∧
    caller_size 2 = 5 * 2 + 9 ∧
    Z.of_nat (length stub) = 5 * 2 + 9 ∧
    (length busy < 3)%nat ∧ Forall (λ a, a ≠ 0) busy.
Proof.
  apply (well_formed_call_returns (scripted (live_target 2)) 3 4242 0x401000 2 [1; 1] O).
  - unfold is_dword. lia.
  - lia.
  - simpl. lia.
  - intros size w0 Hpos. eexists. split; [reflexivity |].
    rewrite length_replicate. apply Z2Nat.id. exact Hpos.
  - apply live_target_answers.
Defined.


(** ** The command line *)

Module CommandLineFacts.
Import stdpp.strings CommandLine.
Local Open Scope string_scope.
Local Open Scope list_scope.
Local Open Scope Z_scope.

Example main_sum :
  main sum_libc (scripted (live_target 2)) 5 6
    ["ExternalCaller.exe"; "4242"; "401000"; "2"; "1"; "1"] O
  = Exited 2 3%nat
      ([ Api (Emalloc 8 (fresh_block 8)) ]
       ++ (Api <$>
             [ EOpenProcess 0x1FFFFF 0 4242 0x64;
               EVirtualAllocEx 0x64 0 19 0x3000 0x40 0x500000;
               Emalloc 19 (fresh_block 19);
               EWriteProcessMemory 0x64 0x500000
                 [0x68; 1; 0; 0; 0;  0x68; 1; 0; 0; 0;
                  0xe8; 0xf1; 0x0f; 0xf0; 0xff;  0x83; 0xc4; 8;  0xc3] 19;
               ECreateRemoteThread 0x64 0x500000 0x68;
               EWaitForSingleObject 0x68 0 0x102;
               EWaitForSingleObject 0x68 0 0x102;
               EWaitForSingleObject 0x68 0 0;
               EGetExitCodeThread 0x68 (Some 2);
               ECloseHandle 0x68;
               Efree [0x68; 1; 0; 0; 0;  0x68; 1; 0; 0; 0;
                      0xe8; 0xf1; 0x0f; 0xf0; 0xff;  0x83; 0xc4; 8;  0xc3];
               EVirtualFreeEx 0x64 0x500000 19 0x10000;
               ECloseHandle 0x64 ])
       ++ [ Printf "Result: 0x%x\n" [2];
            Api (Efree [1; 0; 0; 0;  1; 0; 0; 0]) ]).
Proof. vm_compute. reflexivity. Qed.

Lemma as_dwords_length (m : nat) : ∀ bytes,
  List.length bytes = (4 * m)%nat → List.length (as_dwords bytes) = m.
Proof.
  induction m as [| m IH]; intros bytes Hlen.
  - destruct bytes; [reflexivity | discriminate].
  - destruct bytes as [| b0 [| b1 [| b2 [| b3 rest]]]]; simpl in Hlen; try lia.
    simpl. f_equal. apply IH. lia.
Qed.

Lemma store_dword_at pre x post idx v :
  idx = Z.of_nat (List.length pre) →
  store_dword (pre ++ x :: post) idx v = Some (pre ++ dword v :: post).
Proof.
  intros ->. unfold store_dword.
  assert (Hb : in_bounds (pre ++ x :: post) (Z.of_nat (List.length pre)) = true).
  { apply in_bounds_true. rewrite length_app. simpl. lia. }
  rewrite Hb, Nat2Z.id. f_equal.
  replace (List.length pre) with (List.length pre + 0)%nat at 1 by lia.
  rewrite insert_app_r. reflexivity.
Qed.

Lemma parse_arguments_unfold c fuel i arguments_number argv arguments :
  parse_arguments c fuel i arguments_number argv arguments =
  if dword i <? arguments_number then
    match fuel with
    | O => None
    | S fuel' =>
        k ← int_val (4 + i);
        s ← load argv k;
        arguments ← store_dword arguments i (atoi c s);
        i' ← int_val (i + 1);
        parse_arguments c fuel' i' arguments_number argv arguments
    end
  else Some arguments.
Proof. destruct fuel; reflexivity. Qed.

(** The loop with [k] tokens to go, on an array split at the next entry:
    it stores the next [k] tokens, converted, in the order given. *)
Lemma parse_arguments_fill c (k : nat) : ∀ fuel n argv pre rest,
  is_dword n → (k <= fuel)%nat → Z.of_nat k <= n →
  4 + n <= Z.of_nat (List.length argv) → Z.of_nat (List.length argv) <= INT_MAX →
  Z.of_nat (List.length pre) = n - Z.of_nat k → List.length rest = k →
  parse_arguments c fuel (n - Z.of_nat k) n argv (pre ++ rest)
  = Some (pre ++ ((λ s, dword (atoi c s))
                    <$> take k (drop (Z.to_nat (4 + n) - k) argv))).
Proof.
  induction k as [| k IH];
    intros fuel n argv pre rest Hn Hfuel Hk Hargv Hint Hpre Hrest;
    rewrite parse_arguments_unfold;
    (rewrite (dword_small (n - _)) by (unfold is_dword in *; lia)).
  { replace (n - Z.of_nat 0 <? n) with false by (symmetry; apply Z.ltb_ge; lia).
    destruct rest; [| discriminate]. reflexivity. }
  replace (n - Z.of_nat (S k) <? n) with true by (symmetry; apply Z.ltb_lt; lia).
  destruct fuel as [| fuel]; [lia |].
  unfold INT_MAX in Hint. unfold is_dword in Hn.
  assert (Ek : int_val (4 + (n - Z.of_nat (S k))) = Some (4 + (n - Z.of_nat (S k))))
    by (apply int_val_Some; unfold INT_MIN, INT_MAX; lia).
  rewrite Ek. cbn [mbind option_bind].
  destruct (argv !! (Z.to_nat (4 + n) - S k)%nat) as [s|] eqn:Es;
    [| apply lookup_ge_None in Es; lia].
  assert (Eload : load argv (4 + (n - Z.of_nat (S k))) = Some s).
  { apply load_Some. split; [lia |].
    replace (Z.to_nat (4 + (n - Z.of_nat (S k))))
      with (Z.to_nat (4 + n) - S k)%nat by lia.
    exact Es. }
  rewrite Eload. cbn [mbind option_bind].
  destruct rest as [| x rest]; [discriminate |].
  rewrite store_dword_at by lia. cbn [mbind option_bind].
  assert (Ei : int_val (n - Z.of_nat (S k) + 1) = Some (n - Z.of_nat k))
    by (apply int_val_Some; unfold INT_MIN, INT_MAX; lia).
  rewrite Ei. cbn [mbind option_bind].
  rewrite (cons_middle _ pre), app_assoc.
  rewrite (IH fuel n argv (pre ++ [dword (atoi c s)]) rest);
    try (unfold is_dword, INT_MAX; lia).
  2: { rewrite length_app. simpl. lia. }
  2: { simpl in Hrest. lia. }
  f_equal. rewrite <- app_assoc. f_equal.
  rewrite (drop_S _ _ _ Es). rewrite firstn_cons, fmap_cons.
  replace (S (Z.to_nat (4 + n) - S k)) with (Z.to_nat (4 + n) - k)%nat by lia.
  reflexivity.
Qed.



Section MainFacts.
Context {World : Type} (c : libc) (api : WinAPI World).

(** X8.  The one check [main] makes is on the number of words: with
    fewer than three positional arguments it prints the usage text and
    exits with status -1 without a call to the allocator or the process
    API; with three or more it goes on to [malloc] whatever the words
    are. *)
Theorem main_checks_only_the_word_count fuel argc argv w :
  Z.of_nat (List.length argv) = argc →
  (argc < 4 ∧ main c api fuel argc argv w = Exited (-1) w usage) ∨
  (4 <= argc ∧
   ∃ size blk rest,
     log_of (main c api fuel argc argv w) = Api (Emalloc size blk) :: rest).
Proof.
  intros Hlen. unfold main.
  destruct (argc <? 4) eqn:Hlt.
  - apply Z.ltb_lt in Hlt. left. auto.
  - apply Z.ltb_ge in Hlt. right. split; [exact Hlt |].
    destruct (load_is_Some argv 1) as [s1 ->]; [lia |].
    destruct (load_is_Some argv 2) as [s2 ->]; [lia |].
    destruct (load_is_Some argv 3) as [s3 ->]; [lia |].
    destruct (malloc api _ w) as [blk w1].
    destruct (parse_arguments _ _ _ _ _ _) as [arguments|]; [| simpl; eauto].
    destruct (call_external_cdecl_function _ _ _ _ _ _ _ _); simpl; eauto.
Qed.

(** X9.  On a command line that supplies at least as many argument words
    as its count says, [main] is the call of the function on the parsed
    words: the identifier, the address and the first [n] argument words
    in the order given (further words are ignored).  When the function
    returns, [main] prints the result, frees the array and exits with the
    result converted to [int]. *)
Theorem main_passes_the_parsed_words fuel argc argv w s1 s2 s3 b w1 :
  4 <= argc <= INT_MAX → Z.of_nat (List.length argv) = argc →
  argv !! 1%nat = Some s1 → argv !! 2%nat = Some s2 → argv !! 3%nat = Some s3 →
  let n := dword (atoi c s3) in
  n <= argc - 4 → 4 * n < 2 ^ 32 →
  malloc api (4 * n) w = (Some b, w1) → Z.of_nat (List.length b) = 4 * n →
  let arguments := (λ s, dword (atoi c s)) <$> take (Z.to_nat n) (drop 4 argv) in
  main c api fuel argc argv w =
  match
    call_external_cdecl_function api fuel (dword (atoi c s1))
      (dword (strtoul c s2 16)) n arguments w1 []
  with
  | Done result w' tr =>
      Exited (to_int result) (free api (arguments ≫= le_bytes) w')
        (Api (Emalloc (4 * n) (Some b)) :: (Api <$> tr)
           ++ [Printf "Result: 0x%x\n" [result];
               Api (Efree (arguments ≫= le_bytes))])
  | Halt why w' tr =>
      Stuck why w' (Api (Emalloc (4 * n) (Some b)) :: (Api <$> tr))
  end.
Proof.
  intros Hargc Hlen E1 E2 E3 n Hn H4n Hmalloc Hb arguments.
  assert (Hdw : is_dword n) by apply dword_is_dword.
  unfold main.
  replace (argc <? 4) with false by (symmetry; apply Z.ltb_ge; lia).
  rewrite (proj2 (load_Some argv 1 s1)) by (split; [lia | exact E1]).
  rewrite (proj2 (load_Some argv 2 s2)) by (split; [lia | exact E2]).
  rewrite (proj2 (load_Some argv 3 s3)) by (split; [lia | exact E3]).
  fold n.
  assert (Hm : mul32 4 n = 4 * n).
  { unfold mul32. apply dword_small. unfold is_dword in *. lia. }
  rewrite Hm, Hmalloc. cbn [from_option].
  pose proof (parse_arguments_fill c (Z.to_nat n) (Z.to_nat n) n argv []
                (as_dwords b)) as Hfill.
  rewrite Z2Nat.id in Hfill by (unfold is_dword in Hdw; lia).
  rewrite Z.sub_diag, !app_nil_l in Hfill.
  rewrite Hfill; try assumption; try lia; try reflexivity.
  - replace (Z.to_nat (4 + n) - Z.to_nat n)%nat with 4%nat
      by (unfold is_dword in Hdw; lia).
    fold arguments.
    destruct (call_external_cdecl_function _ _ _ _ _ _ _ _); reflexivity.
  - apply as_dwords_length. unfold is_dword in Hdw. lia.
Qed.


End MainFacts.

Lemma main_checks_only_the_word_count_witness :
  (2 < 4 ∧
   main sum_libc (scripted (live_target 2)) 5 2 ["ExternalCaller.exe"; "4242"] O
   = Exited (-1) O usage) ∨
  (4 <= 2 ∧
   ∃ size blk rest,
     log_of (main sum_libc (scripted (live_target 2)) 5 2
               ["ExternalCaller.exe"; "4242"] O)
     = Api (Emalloc size blk) :: rest).
Proof.
  apply (main_checks_only_the_word_count sum_libc (scripted (live_target 2)) 5 2
           ["ExternalCaller.exe"; "4242"] O).
  reflexivity.
Defined.

Lemma main_passes_the_parsed_words_witness :
  main sum_libc (scripted (live_target 2)) 5 7
    ["ExternalCaller.exe"; "4242"; "401000"; "2"; "1"; "7"; "1"] O =
  match
    call_external_cdecl_function (scripted (live_target 2)) 5
      (dword 4242) (dword 0x401000) (dword 2)
      ((λ s, dword (atoi sum_libc s))
         <$> take (Z.to_nat (dword 2))
               (drop 4 ["ExternalCaller.exe"; "4242"; "401000"; "2"; "1"; "7"; "1"]))
      O []
  with
  | Done result w' tr =>
      Exited (to_int result)
        (free (scripted (live_target 2))
           (((λ s, dword (atoi sum_libc s))
               <$> take (Z.to_nat (dword 2))
                     (drop 4 ["ExternalCaller.exe"; "4242"; "401000"; "2"; "1"; "7"; "1"]))
            ≫= le_bytes) w')
        (Api (Emalloc (4 * dword 2) (fresh_block 8)) :: (Api <$> tr)
           ++ [Printf "Result: 0x%x\n" [result];
               Api (Efree
                      (((λ s, dword (atoi sum_libc s))
                          <$> take (Z.to_nat (dword 2))
                                (drop 4 ["ExternalCaller.exe"; "4242"; "401000"; "2"; "1"; "7"; "1"]))
                       ≫= le_bytes))])
  | Halt why w' tr =>
      Stuck why w' (Api (Emalloc (4 * dword 2) (fresh_block 8)) :: (Api <$> tr))
  end.
Proof.
  apply (main_passes_the_parsed_words sum_libc (scripted (live_target 2)) 5 7
           ["ExternalCaller.exe"; "4242"; "401000"; "2"; "1"; "7"; "1"] O
           "4242" "401000" "2" (replicate 8 0xcd) O).
  - unfold INT_MAX. lia.
  - reflexivity.
  - reflexivity.
  - reflexivity.
  - reflexivity.
  - vm_compute. discriminate.
  - vm_compute. reflexivity.
  - reflexivity.
  - reflexivity.
Defined.


End CommandLineFacts.
